(** * Healthcare service dashboard: the data pipeline of [app.py]

    A shallow embedding of the data preparation ([raw_df], [company_counts],
    [reviews_per_type], [company_breakdown]) and of the two category-scoped
    callbacks ([update_category_pie], [update_company_breakdown]) of
    [src/app.py], with the properties of the specification stated over it.

    Modelling conventions.
    - A data frame is the list of its rows, in row order.
    - A text cell is an [option string]: [None] is pandas' missing value
      (NaN), which is also how the spreadsheet loader delivers an empty cell.
    - The 'Review Count' cell of the sheet is a [cell]: missing, an integer,
      a finite float (an exact rational here) or text.
    - int64 values are integers of [Z]; magnitudes are taken to stay within
      the machine range, and non-finite floats are outside the model.
    - Column labels produced by [unstack] are company-type values; they are
      taken to differ from the labels 'Standardized Category' and
      'Category' of the index column.
    - A frame on which a pandas call cannot form its result (an empty
      sheet) is modelled by the empty result. *)

From Stdlib Require Import List String Ascii Bool ZArith QArith Lia.
From Stdlib Require Import Sorted OrderedTypeEx.
From Stdlib Require DecimalString DecimalZ DecimalPos.
Import ListNotations.
Local Open Scope string_scope.
Local Open Scope Z_scope.

Set Implicit Arguments.

(** ** Cells and rows *)

Inductive cell : Type :=
| CNaN
| CInt (z : Z)
| CFloat (q : Q)
| CStr (s : string).

(** A row of the sheet as loaded (line 14). *)
Record SheetRow : Type := mkSheetRow {
  sheet_Company_Name : option string;
  sheet_Company_Type : option string;
  sheet_Company_Location : option string;
  sheet_Standardized_Category : option string;
  sheet_Review_Count : cell
}.

(** A row of [raw_df] once 'Review Count' has been cast to int (line 18). *)
Record Row : Type := mkRow {
  Company_Name : option string;
  Company_Type : option string;
  Company_Location : option string;
  Standardized_Category : option string;
  Review_Count : Z
}.

(** ** Dictionaries and [Series.replace] *)

Fixpoint lookup (m : list (string * string)) (k : string) : option string :=
  match m with
  | [] => None
  | (k', v) :: m' => if String.eqb k k' then Some v else lookup m' k
  end.

(** [Series.replace(mapping)] on one value: a key of the dictionary is
    replaced by its value, every other value is left as it is. *)
Definition replace (m : list (string * string)) (s : string) : string :=
  match lookup m s with
  | Some v => v
  | None => s
  end.

(** A missing cell matches no key and stays missing. *)
Definition replace_cell (m : list (string * string)) (c : option string)
  : option string :=
  option_map (replace m) c.

Definition company_type_mapping : list (string * string) :=
  [ ("Modern/High-Class Private Hospital", "High-Class Private Hospital") ].

Definition category_mapping : list (string * string) :=
  [ ("Slow Services or Lengthy Waiting Times",
     "Slow Services or Lengthy Waiting Times");
    ("Unprofessional Staff", "Unprofessional Staff");
    ("Hostility", "Hostility");
    ("Poor Compensation", "Poor Compensation");
    ("Unavailability of Medication/Equipment",
     "Unavailability of Medication/Equipment");
    ("Unavailability of Specialist", "Unavailability of Specialists");
    ("Expensive Costs", "Expensive Costs");
    ("Others", "Others") ].

Definition available_categories : list string :=
  [ "Slow Services or Lengthy Waiting Times";
    "Unavailability of Medication/Equipment";
    "Unprofessional Staff";
    "Unavailability of Specialists";
    "Poor Compensation";
    "Hostility";
    "Expensive Costs";
    "Others" ].

Definition company_types : list string :=
  [ "Government Hospital";
    "Small Private Hospital";
    "High-Class Private Hospital" ].

(** ** Cleaning (lines 17-37) *)

Definition notna (c : option string) : bool :=
  match c with
  | Some _ => true
  | None => false
  end.

(** [dropna(subset=['Company Name', 'Standardized Category'])]. *)
Definition dropna (df : list SheetRow) : list SheetRow :=
  filter (fun r => notna (sheet_Company_Name r)
                   && notna (sheet_Standardized_Category r)) df.

(** [fillna(0)] on a numeric column. *)
Definition fillna (q0 : Q) (v : option Q) : Q :=
  match v with
  | Some q => q
  | None => q0
  end.

(** [astype(int)]: the fractional part is discarded (rounding toward zero). *)
Definition astype_int (q : Q) : Z :=
  Z.quot (Qnum q) (Z.pos (Qden q)).

Section Cleaning.

(** pandas' parser of numeric text, used by [to_numeric] on a text cell:
    [None] when the text is not a number. *)
Variable parse_numeric : string -> option Q.

(** [pd.to_numeric(..., errors='coerce')] on one cell. *)
Definition to_numeric (c : cell) : option Q :=
  match c with
  | CNaN => None
  | CInt z => Some (inject_Z z)
  | CFloat q => Some q
  | CStr s => parse_numeric s
  end.

Definition clean_review_count (c : cell) : Z :=
  astype_int (fillna (inject_Z 0) (to_numeric c)).

(** The column assignments of lines 18, 24 and 37 on one row. *)
Definition clean_row (r : SheetRow) : Row :=
  {| Company_Name := sheet_Company_Name r;
     Company_Type := replace_cell company_type_mapping (sheet_Company_Type r);
     Company_Location := sheet_Company_Location r;
     Standardized_Category :=
       replace_cell category_mapping (sheet_Standardized_Category r);
     Review_Count := clean_review_count (sheet_Review_Count r) |}.

(** [raw_df] after section 2 of the script. *)
Definition raw_df (sheet : list SheetRow) : list Row :=
  map clean_row (dropna sheet).

(** [viz_df = raw_df.copy()]. *)
Definition viz_df (sheet : list SheetRow) : list Row := raw_df sheet.

End Cleaning.

(** A cleaned row read again as a row of the sheet. *)
Definition as_sheet_row (r : Row) : SheetRow :=
  {| sheet_Company_Name := Company_Name r;
     sheet_Company_Type := Company_Type r;
     sheet_Company_Location := Company_Location r;
     sheet_Standardized_Category := Standardized_Category r;
     sheet_Review_Count := CInt (Review_Count r) |}.

(** A parser of unsigned decimal text, used to run the pipeline on concrete
    sheets. *)
Fixpoint parse_digits (acc : Z) (s : string) : option Z :=
  match s with
  | EmptyString => Some acc
  | String a s' =>
      let n := Z.of_nat (nat_of_ascii a) in
      if (48 <=? n) && (n <=? 57)
      then parse_digits (10 * acc + (n - 48)) s'
      else None
  end.

Definition parse_decimal (s : string) : option Q :=
  match s with
  | EmptyString => None
  | _ => option_map inject_Z (parse_digits 0 s)
  end.

(** ** Group keys

    [groupby] sorts the group keys (here text, compared by code point) and
    keeps each once. *)

Fixpoint insert_key (s : string) (l : list string) : list string :=
  match l with
  | [] => [s]
  | x :: l' =>
      match String.compare s x with
      | Lt => s :: x :: l'
      | Eq => x :: l'
      | Gt => x :: insert_key s l'
      end
  end.

Definition sort_unique (l : list string) : list string :=
  fold_right insert_key [] l.

(** The order of the keys. *)
Definition before (a b : string) : Prop := String.compare a b = Lt.

(** The values of a key column that are not missing, in row order. *)
Definition present (l : list (option string)) : list string :=
  flat_map (fun c => match c with Some s => [s] | None => [] end) l.

(** Elementwise [==] of a text cell with a Python value: a missing cell or
    a [None] right-hand side never compares equal. *)
Definition cell_eq (c sel : option string) : bool :=
  match c, sel with
  | Some a, Some b => String.eqb a b
  | _, _ => false
  end.

Definition sum_Z (l : list Z) : Z := fold_right Z.add 0 l.

(** ** [groupby(['Standardized Category', 'Company Type'])] *)

(** Rows of the group [(c, t)]. With the default [dropna=True] a row with a
    missing key belongs to no group. *)
Definition in_group (c t : string) (r : Row) : bool :=
  cell_eq (Standardized_Category r) (Some c) && cell_eq (Company_Type r) (Some t).

Definition has_keys (r : Row) : bool :=
  notna (Standardized_Category r) && notna (Company_Type r).

(** A series indexed by (category, company type). *)
Definition Series : Type := list ((string * string) * Z).

(** The sorted values of each key among the rows that are grouped. *)
Definition key_categories (df : list Row) : list string :=
  sort_unique (present (map Standardized_Category (filter has_keys df))).

Definition key_types (df : list Row) : list string :=
  sort_unique (present (map Company_Type (filter has_keys df))).

(** The entry of the group [(c, t)]: none when no row is in the group. *)
Definition group_entry (agg : list Row -> Z) (df : list Row) (c t : string)
  : Series :=
  match filter (in_group c t) df with
  | [] => []
  | g => [((c, t), agg g)]
  end.

(** The aggregate [agg] of every observed group, in sorted key order. *)
Definition groupby_agg (agg : list Row -> Z) (df : list Row) : Series :=
  flat_map (fun c => flat_map (group_entry agg df c) (key_types df))
           (key_categories df).

(** The value the grouped series holds at a key, if any. *)
Definition at_key (agg : list Row -> Z) (df : list Row) (c t : string)
  : option Z :=
  match filter (in_group c t) df with
  | [] => None
  | g => Some (agg g)
  end.

(** [.size()] and [['Review Count'].sum()]. *)
Definition size (g : list Row) : Z := Z.of_nat (List.length g).
Definition sum_Review_Count (g : list Row) : Z := sum_Z (map Review_Count g).

(** ** Wide frames: [unstack], column assignment *)

(** One record of [to_dict('records')]: the category and the labelled
    cells of the other columns, in column order. *)
Record WideRow : Type := mkWideRow {
  Category : string;
  cells : list (string * Z)
}.

Record Frame : Type := mkFrame {
  columns : list string;
  records : list WideRow
}.

Fixpoint series_get (s : Series) (c t : string) : option Z :=
  match s with
  | [] => None
  | ((c', t'), v) :: s' =>
      if String.eqb c c' && String.eqb t t' then Some v else series_get s' c t
  end.

(** [.unstack(fill_value=...).reset_index()]: one row per first-level key,
    one column per second-level key, absent combinations filled. *)
Definition unstack (fill_value : Z) (s : Series) : Frame :=
  let cols := sort_unique (map (fun e => snd (fst e)) s) in
  {| columns := cols;
     records :=
       map (fun c =>
              {| Category := c;
                 cells := map (fun t =>
                                 (t, match series_get s c t with
                                     | Some v => v
                                     | None => fill_value
                                     end)) cols |})
           (sort_unique (map (fun e => fst (fst e)) s)) |}.

Fixpoint get (label : string) (cs : list (string * Z)) : option Z :=
  match cs with
  | [] => None
  | (l, v) :: cs' => if String.eqb label l then Some v else get label cs'
  end.

Definition mem (label : string) (l : list string) : bool :=
  existsb (String.eqb label) l.

Definition set_cell (label : string) (v : Z) (cs : list (string * Z))
  : list (string * Z) :=
  map (fun e => if String.eqb label (fst e) then (fst e, v) else e) cs.

(** [df[label] = value]: an existing column is overwritten, a new one is
    appended. *)
Definition assign (label : string) (value : WideRow -> Z) (f : Frame) : Frame :=
  if mem label (columns f)
  then {| columns := columns f;
          records := map (fun r => {| Category := Category r;
                                      cells := set_cell label (value r) (cells r) |})
                         (records f) |}
  else {| columns := columns f ++ [label];
          records := map (fun r => {| Category := Category r;
                                      cells := cells r ++ [(label, value r)] |})
                         (records f) |}.

(** [for ct in company_types: if ct not in df.columns: df[ct] = 0]. *)
Definition ensure_columns (cts : list string) (f : Frame) : Frame :=
  fold_left (fun f ct => if mem ct (columns f) then f
                         else assign ct (fun _ => 0) f) cts f.

(** [row[label]] where the column exists. *)
Definition at_label (label : string) (r : WideRow) : Z :=
  match get label (cells r) with
  | Some v => v
  | None => 0
  end.

(** [df[cts].sum(axis=1)] on one row; the selected columns exist once
    [ensure_columns] has run. *)
Definition sum_columns (cts : list string) (r : WideRow) : Z :=
  sum_Z (map (fun ct => at_label ct r) cts).

Definition add_Total (f : Frame) : Frame :=
  assign "Total" (sum_columns company_types) f.

(** Section 3.1: count per category and company type. *)
Definition company_counts (df : list Row) : Frame :=
  add_Total (ensure_columns company_types (unstack 0 (groupby_agg size df))).

(** Section 3.2: review counts per category and company type. *)
Definition reviews_per_type (df : list Row) : Frame :=
  add_Total (ensure_columns company_types
               (unstack 0 (groupby_agg sum_Review_Count df))).

(** A frame holds the values [val]: in every row the cell of a column of
    the frame is [val category column], and there is no other cell. *)
Definition frame_values (f : Frame) (val : string -> string -> Z) : Prop :=
  forall r, In r (records f) ->
  forall t, get t (cells r)
            = if mem t (columns f) then Some (val (Category r) t) else None.

(** The number of rows of a frame that satisfy a condition. *)
Definition count_rows (p : Row -> bool) (df : list Row) : Z :=
  Z.of_nat (List.length (filter p df)).

(** A cell that holds one of the listed values. *)
Definition key_in (keys : list string) (c : option string) : bool :=
  match c with
  | Some k => mem k keys
  | None => false
  end.

Definition has_type_in (cts : list string) (r : Row) : bool :=
  key_in cts (Company_Type r).

(** Section 3.3: the long-form sums behind the overview charts. *)
Definition in_category (c : string) (r : Row) : bool :=
  cell_eq (Standardized_Category r) (Some c).

Definition category_reviews (df : list Row) : list (string * Z) :=
  map (fun c => (c, sum_Review_Count (filter (in_category c) df)))
      (sort_unique (present (map Standardized_Category df))).

Definition reviews_by_type (df : list Row) : Series :=
  groupby_agg sum_Review_Count df.

(** ** [drop_duplicates] *)

(** Equality of cells as [drop_duplicates] sees it: two missing cells are
    the same value. *)
Definition same_cell (a b : option string) : bool :=
  match a, b with
  | Some x, Some y => String.eqb x y
  | None, None => true
  | _, _ => false
  end.

Definition same_pair (p q : option string * option string) : bool :=
  same_cell (fst p) (fst q) && same_cell (snd p) (snd q).

Definition same_triple (p q : option string * (option string * option string))
  : bool :=
  same_cell (fst p) (fst q) && same_pair (snd p) (snd q).

Section Duplicates.

Variable A : Type.
Variable same : A -> A -> bool.

(** [drop_duplicates()] (keep='first'): a row is kept unless an equal row
    has been seen before it. *)
Fixpoint drop_duplicates_from (seen l : list A) : list A :=
  match l with
  | [] => []
  | x :: l' =>
      if existsb (same x) seen
      then drop_duplicates_from seen l'
      else x :: drop_duplicates_from (x :: seen) l'
  end.

Definition drop_duplicates (l : list A) : list A :=
  drop_duplicates_from [] l.

(** The specification's reading of a list of distinct values in
    first-seen order: every value stays where it first occurs and its
    later copies are removed. *)
Fixpoint first_occurrences (l : list A) : list A :=
  match l with
  | [] => []
  | x :: l' => x :: filter (fun y => negb (same x y)) (first_occurrences l')
  end.

End Duplicates.

(** The number of distinct company names among the rows of a group. *)
Definition distinct_companies (df : list Row) (c t : string) : Z :=
  Z.of_nat (List.length
              (drop_duplicates same_cell
                 (map Company_Name (filter (in_group c t) df)))).

(** ** The company directory (lines 89-93, 679-698) *)

Definition Company : Type := (option string * option string)%type.

Definition breakdown_key (r : Row) : option string * Company :=
  (Standardized_Category r, (Company_Name r, Company_Location r)).

(** One row per category, holding the list of records
    [{'Company Name', 'Company Location'}] of that category. *)
Definition company_breakdown (df : list Row) : list (string * list Company) :=
  let distinct := drop_duplicates same_triple (map breakdown_key df) in
  map (fun c => (c, map snd (filter (fun k => cell_eq (fst k) (Some c)) distinct)))
      (sort_unique (present (map fst distinct))).

Inductive BreakdownView : Type :=
| NoCompanies
| CompanyTable (data : list Company).

Definition update_company_breakdown (df : list Row)
  (selected_category : option string) : BreakdownView :=
  match filter (fun row => cell_eq (Some (fst row)) selected_category)
               (company_breakdown df) with
  | [] => NoCompanies
  | row :: _ => CompanyTable (snd row)
  end.


(** The specification's directory of a category: the (name, location)
    pairs of the records of that category, each kept at its first
    occurrence. *)
Definition spec_directory (df : list Row) (c : option string) : list Company :=
  first_occurrences same_pair
    (map (fun r => (Company_Name r, Company_Location r))
         (filter (fun r => cell_eq (Standardized_Category r) c) df)).

(** ** The category pie chart (lines 624-673) *)

Record PieFigure : Type := mkPieFigure {
  pie_title : option string;
  category_by_type : list (string * Z);
  total_reviews : Z
}.

Definition of_type (t : string) (r : Row) : bool :=
  cell_eq (Company_Type r) (Some t).

(** [groupby('Company Type')['Review Count'].sum().reset_index()]. *)
Definition groupby_type_sum (df : list Row) : list (string * Z) :=
  map (fun t => (t, sum_Review_Count (filter (of_type t) df)))
      (sort_unique (present (map Company_Type df))).

Definition update_category_pie (df : list Row)
  (selected_category : option string) : PieFigure :=
  let category_data :=
    filter (fun r => cell_eq (Standardized_Category r) selected_category) df in
  let by_type := groupby_type_sum category_data in
  {| pie_title := selected_category;
     category_by_type := by_type;
     total_reviews := sum_Z (map snd by_type) |}.

(** ** The callback wiring (lines 524-528, 620-623, 675-678) *)

(** The component properties named by the [Input]s and [Output]s. *)
Inductive property : Type :=
| pie_chart_figure
| pie_chart_hoverData
| stacked_bar_figure
| category_dropdown_value
| category_pie_chart_figure
| breakdown_category_dropdown_value
| company_breakdown_table_children.

Definition property_eqb (p q : property) : bool :=
  match p, q with
  | pie_chart_figure, pie_chart_figure
  | pie_chart_hoverData, pie_chart_hoverData
  | stacked_bar_figure, stacked_bar_figure
  | category_dropdown_value, category_dropdown_value
  | category_pie_chart_figure, category_pie_chart_figure
  | breakdown_category_dropdown_value, breakdown_category_dropdown_value
  | company_breakdown_table_children, company_breakdown_table_children => true
  | _, _ => false
  end.

Inductive value : Type :=
| Undefined
| Hover
| Selected (c : option string)
| Overview (data : list (string * Z))
| Stacked (data : Series)
| Pie (fig : PieFigure)
| Children (view : BreakdownView).

(** What a callback receives as [selected_category]. *)
Definition selected_category_of (v : value) : option string :=
  match v with
  | Selected c => c
  | _ => None
  end.

Record callback : Type := mkCallback {
  outputs : list property;
  input : property;
  run : value -> list value
}.

Definition Layout : Type := property -> value.

Definition set_property (st : Layout) (p : property) (v : value) : Layout :=
  fun q => if property_eqb q p then v else st q.

Fixpoint write_outputs (st : Layout) (ps : list property) (vs : list value)
  : Layout :=
  match ps, vs with
  | p :: ps', v :: vs' => write_outputs (set_property st p v) ps' vs'
  | _, _ => st
  end.

Section Dashboard.

(** The cleaned frame the callbacks read ([viz_df] and the tables
    computed from it at start-up). *)
Variable df : list Row.

Definition update_figures (hover_data : value) : list value :=
  [ Overview (category_reviews df); Stacked (reviews_by_type df) ].

Definition callbacks : list callback :=
  [ {| outputs := [pie_chart_figure; stacked_bar_figure];
       input := pie_chart_hoverData;
       run := update_figures |};
    {| outputs := [category_pie_chart_figure];
       input := category_dropdown_value;
       run := fun v => [Pie (update_category_pie df (selected_category_of v))] |};
    {| outputs := [company_breakdown_table_children];
       input := breakdown_category_dropdown_value;
       run := fun v =>
                [Children (update_company_breakdown df (selected_category_of v))] |} ].

(** A property changes in the browser: it is stored, and every callback
    registered on it as [Input] runs and overwrites its [Output]s. No
    output of this application is the input of another callback. *)
Definition dispatch (st : Layout) (p : property) (v : value) : Layout :=
  fold_left
    (fun st cb =>
       if property_eqb (input cb) p
       then write_outputs st (outputs cb) (run cb v)
       else st)
    callbacks (set_property st p v).

(** What the user can do. *)
Inductive event : Type :=
| select_category (c : option string)
| select_breakdown_category (c : option string)
| hover.

Definition step (st : Layout) (e : event) : Layout :=
  match e with
  | select_category c => dispatch st category_dropdown_value (Selected c)
  | select_breakdown_category c =>
      dispatch st breakdown_category_dropdown_value (Selected c)
  | hover => dispatch st pie_chart_hoverData Hover
  end.

Definition run_events (st : Layout) (es : list event) : Layout :=
  fold_left step es st.

End Dashboard.

(** The events of a trace that concern one selector. *)
Definition category_selections (es : list event) : list (option string) :=
  flat_map (fun e => match e with select_category c => [c] | _ => [] end) es.

Definition breakdown_selections (es : list event) : list (option string) :=
  flat_map (fun e => match e with
                     | select_breakdown_category c => [c]
                     | _ => []
                     end) es.

(** Every record of the frame has the frame's columns, in order. *)
Definition same_labels (f : Frame) : Prop :=
  Forall (fun r => map fst (cells r) = columns f) (records f).

(** ** Key metrics and the long-form series (lines 86, 223) *)


(** The rows of a long-form series for one category, as (company type,
    value) pairs. *)
Definition series_slice (c : string) (s : Series) : list (string * Z) :=
  map (fun e => (snd (fst e), snd e))
      (filter (fun e => String.eqb (fst (fst e)) c) s).

(** ** Number formatting and the reviews table (lines 410-417) *)

(** A comma is written before a digit when [k] digits have gone since the
    last one; three digits follow every comma. *)
Fixpoint commas (k : nat) (s : string) : string :=
  match s with
  | EmptyString => EmptyString
  | String a s' =>
      match k with
      | O => String "," (String a (commas 2 s'))
      | S k' => String a (commas k' s')
      end
  end.

(** Groups of three digits counted from the right. *)
Definition group_thousands (s : string) : string :=
  commas (S ((String.length s - 1) mod 3)) s.

(** Python's [format(n, ',')], the [{n:,}] of an f-string: the sign, then
    the decimal digits with a comma between groups of three. *)
Definition format_thousands (z : Z) : string :=
  match Z.to_int z with
  | Decimal.Pos d => group_thousands (DecimalString.NilZero.string_of_uint d)
  | Decimal.Neg d =>
      String "-" (group_thousands (DecimalString.NilZero.string_of_uint d))
  end.

Fixpoint strip_commas (s : string) : string :=
  match s with
  | EmptyString => EmptyString
  | String a s' =>
      if Ascii.eqb a "," then strip_commas s' else String a (strip_commas s')
  end.

(** [f"{v:,} reviews" if v > 0 else "0 reviews"]. *)
Definition display_reviews (v : Z) : string :=
  if 0 <? v then format_thousands v ++ " reviews" else "0 reviews".



(** Reading a formatted number back: the commas are dropped and the rest
    is read as a decimal integer. *)
Definition parse_thousands (s : string) : option Z :=
  option_map Z.of_int (DecimalString.NilZero.int_of_string (strip_commas s)).

(** ** Page load (lines 299-304, 483-488) *)

(** The [value] both dropdowns are created with. *)
Definition initial_category : option string :=
  Some "Slow Services or Lengthy Waiting Times".

(** When the page is loaded every callback runs once on the initial value
    of its input. *)
Definition page_load (df : list Row) : Layout :=
  dispatch df
    (dispatch df
       (dispatch df (fun _ => Undefined) pie_chart_hoverData Undefined)
       category_dropdown_value (Selected initial_category))
    breakdown_category_dropdown_value (Selected initial_category).

(** ** Sample sheets *)

Definition sheet_row (name type location category : string) (n : Z) : SheetRow :=
  {| sheet_Company_Name := Some name;
     sheet_Company_Type := Some type;
     sheet_Company_Location := Some location;
     sheet_Standardized_Category := Some category;
     sheet_Review_Count := CInt n |}.

(** The three records of the specification's worked example. *)
Definition example_sheet : list SheetRow :=
  [ sheet_row "A" "Government Hospital" "locA" "Hostility" 10;
    sheet_row "B" "Small Private Hospital" "locB" "Hostility" 5;
    sheet_row "A" "Government Hospital" "locA" "Expensive Costs" 2 ].

(** A sheet with the defects the cleaning step meets: missing cells, text
    and fractional counts, a synonym of each mapping. *)
Definition untidy_sheet : list SheetRow :=
  [ sheet_row "A" "Government Hospital" "locA" "Hostility" 10;
    {| sheet_Company_Name := None;
       sheet_Company_Type := Some "Government Hospital";
       sheet_Company_Location := Some "locX";
       sheet_Standardized_Category := Some "Hostility";
       sheet_Review_Count := CInt 4 |};
    {| sheet_Company_Name := Some "C";
       sheet_Company_Type := Some "Modern/High-Class Private Hospital";
       sheet_Company_Location := None;
       sheet_Standardized_Category := Some "Unavailability of Specialist";
       sheet_Review_Count := CStr "n/a" |};
    {| sheet_Company_Name := Some "D";
       sheet_Company_Type := Some "Small Private Hospital";
       sheet_Company_Location := Some "locD";
       sheet_Standardized_Category := None;
       sheet_Review_Count := CInt 1 |};
    {| sheet_Company_Name := Some "E";
       sheet_Company_Type := Some "Small Private Hospital";
       sheet_Company_Location := Some "locE";
       sheet_Standardized_Category := Some "Others";
       sheet_Review_Count := CFloat (7 # 2) |} ].

(** A review count below zero. *)
Definition negative_sheet : list SheetRow :=
  [ sheet_row "A" "Government Hospital" "locA" "Hostility" (-5) ].

(** A category that is not a key of [category_mapping]. *)
Definition billing_sheet : list SheetRow :=
  [ sheet_row "A" "Government Hospital" "locA" "Billing" 5 ].

(** One company reported twice under the same category. *)
Definition repeated_sheet : list SheetRow :=
  [ sheet_row "A" "Government Hospital" "locA" "Hostility" 10;
    sheet_row "A" "Government Hospital" "locA" "Hostility" 1 ].

(** One row for each of the eight categories, in the order of
    [available_categories]. *)
Definition full_sheet : list SheetRow :=
  map (fun c => sheet_row "A" "Government Hospital" "locA" c 1)
      available_categories.

(** A company type outside the three listed ones. *)
Definition clinic_sheet : list SheetRow :=
  [ sheet_row "A" "Government Hospital" "locA" "Hostility" 10;
    sheet_row "C" "Clinic" "locC" "Hostility" 7 ].


(* ================================================================== *)
(** * Properties *)

(** ** Dictionaries *)

Lemma lookup_None (m : list (string * string)) (k : string) :
  ~ In k (map fst m) -> lookup m k = None.
Proof.
  induction m as [|[k' v] m IH]; simpl; intros Hk; [reflexivity|].
  destruct (String.eqb_spec k k') as [->|_].
  - exfalso; apply Hk; now left.
  - apply IH; intros H; apply Hk; now right.
Qed.

Lemma lookup_Some (m : list (string * string)) (k v : string) :
  lookup m k = Some v -> In (k, v) m.
Proof.
  induction m as [|[k' v'] m IH]; simpl; [discriminate|].
  destruct (String.eqb_spec k k') as [->|_].
  - intros [= ->]; now left.
  - intros H; right; now apply IH.
Qed.

(** A dictionary none of whose values is rewritten again is applied once
    and for all. *)
Lemma replace_idempotent (m : list (string * string)) :
  Forall (fun kv => replace m (snd kv) = snd kv) m ->
  forall s, replace m (replace m s) = replace m s.
Proof.
  intros Hm s. unfold replace at 2 3.
  destruct (lookup m s) as [v|] eqn:E.
  - apply lookup_Some in E.
    rewrite Forall_forall in Hm. apply (Hm _ E).
  - unfold replace; now rewrite E.
Qed.

Lemma company_type_mapping_idempotent (s : string) :
  replace company_type_mapping (replace company_type_mapping s)
  = replace company_type_mapping s.
Proof.
  apply replace_idempotent. unfold company_type_mapping.
  repeat constructor.
Qed.

Lemma category_mapping_idempotent (s : string) :
  replace category_mapping (replace category_mapping s)
  = replace category_mapping s.
Proof.
  apply replace_idempotent. unfold category_mapping.
  repeat constructor.
Qed.

Lemma category_mapping_values :
  Forall (fun kv => In (snd kv) available_categories) category_mapping.
Proof.
  unfold category_mapping, available_categories.
  repeat (constructor; [simpl; tauto|]). constructor.
Qed.

Lemma available_categories_fixed (c : string) :
  In c available_categories -> replace category_mapping c = c.
Proof.
  unfold available_categories; simpl.
  intros H; repeat destruct H as [<-|H]; try reflexivity; contradiction.
Qed.

(** The table sends a value into the vocabulary exactly when the value is
    one of its keys or already a member of the vocabulary. *)
Lemma replace_category_available (c0 : string) :
  In (replace category_mapping c0) available_categories
  <-> In c0 (map fst category_mapping) \/ In c0 available_categories.
Proof.
  split.
  - unfold replace. destruct (lookup category_mapping c0) as [v|] eqn:E.
    + intros _. left. apply lookup_Some in E.
      change c0 with (fst (c0, v)). now apply in_map.
    + intros H; now right.
  - intros [H|H].
    + unfold replace. destruct (lookup category_mapping c0) as [v|] eqn:E.
      * apply lookup_Some in E.
        pose proof category_mapping_values as V.
        rewrite Forall_forall in V. apply (V _ E).
      * simpl in H.
        repeat destruct H as [<-|H]; try discriminate E; contradiction.
    + now rewrite available_categories_fixed.
Qed.

(** ** Casting to int *)

Lemma astype_int_inject_Z (z : Z) : astype_int (inject_Z z) = z.
Proof. unfold astype_int; simpl. apply Z.quot_1_r. Qed.

Lemma astype_int_nonneg (q : Q) : 0 <= astype_int q <-> (-1 < q)%Q.
Proof.
  destruct q as [n d]. unfold astype_int, Qlt; simpl.
  assert (Hd : 0 < Z.pos d) by lia.
  destruct (Z_lt_le_dec n 0) as [Hn|Hn].
  - replace n with (- (- n)) at 1 by lia.
    rewrite Z.quot_opp_l by lia.
    assert (H0 : 0 <= - n ÷ Z.pos d) by (apply Z.quot_pos; lia).
    split; intros H.
    + assert (E : - n ÷ Z.pos d = 0) by lia.
      apply Z.quot_small_iff in E; lia.
    + assert (E : - n ÷ Z.pos d = 0) by (apply Z.quot_small; lia).
      lia.
  - split; intros _; [lia|]. apply Z.quot_pos; lia.
Qed.

(** ** The cleaning step *)

Lemma notna_true (c : option string) : notna c = true <-> c <> None.
Proof. destruct c; simpl; split; congruence. Qed.

Lemma in_raw_df parse (sheet : list SheetRow) (r : Row) :
  In r (raw_df parse sheet)
  <-> exists s, In s sheet
                /\ sheet_Company_Name s <> None
                /\ sheet_Standardized_Category s <> None
                /\ r = clean_row parse s.
Proof.
  unfold raw_df, dropna. rewrite in_map_iff. split.
  - intros (s & <- & Hs). apply filter_In in Hs as [Hin Hk].
    apply andb_true_iff in Hk as [Hn Hc].
    exists s. rewrite <- !notna_true. auto.
  - intros (s & Hin & Hn & Hc & ->). exists s. split; [reflexivity|].
    apply filter_In. split; [assumption|].
    apply andb_true_iff. rewrite !notna_true. auto.
Qed.

Lemma replace_cell_present m (c : option string) :
  c <> None -> replace_cell m c <> None.
Proof. destruct c; simpl; congruence. Qed.

(** C1 (as amended). The rows of [raw_df] are the cleaned rows of the sheet
    whose company name and category are both present, so no row of
    [raw_df] has either of them missing. The review count of a cleaned row
    is an integer: 0 when the cell is missing or not numeric, otherwise the
    number with its fractional part discarded, which is non-negative
    exactly when the number is above -1. *)
Theorem raw_df_rows_cleaned parse (sheet : list SheetRow) :
  (forall r, In r (raw_df parse sheet)
             <-> exists s, In s sheet
                           /\ sheet_Company_Name s <> None
                           /\ sheet_Standardized_Category s <> None
                           /\ r = clean_row parse s)
  /\ Forall (fun r => Company_Name r <> None /\ Standardized_Category r <> None)
            (raw_df parse sheet)
  /\ (forall s,
        (to_numeric parse (sheet_Review_Count s) = None
         -> Review_Count (clean_row parse s) = 0)
        /\ (forall q, to_numeric parse (sheet_Review_Count s) = Some q
                      -> Review_Count (clean_row parse s) = astype_int q
                         /\ (0 <= Review_Count (clean_row parse s)
                             <-> (-1 < q)%Q))).
Proof.
  split; [intros r; apply in_raw_df|]. split.
  - apply Forall_forall. intros r Hr.
    apply in_raw_df in Hr as (s & _ & Hn & Hc & ->). simpl. split.
    + assumption.
    + now apply replace_cell_present.
  - intros s. simpl. unfold clean_review_count. split.
    + intros ->. reflexivity.
    + intros q ->. simpl. split; [reflexivity|]. apply astype_int_nonneg.
Qed.

(** The untidy sheet: the two rows with a missing name or category are
    gone, the text count became 0 and 3.5 became 3. *)
Lemma raw_df_rows_cleaned_witness :
  map Company_Name (raw_df parse_decimal untidy_sheet)
    = [Some "A"; Some "C"; Some "E"]
  /\ map Review_Count (raw_df parse_decimal untidy_sheet) = [10; 0; 3]
  /\ Forall (fun r => Company_Name r <> None /\ Standardized_Category r <> None)
            (raw_df parse_decimal untidy_sheet).
Proof.
  split; [reflexivity|]. split; [reflexivity|].
  exact (proj1 (proj2 (raw_df_rows_cleaned parse_decimal untidy_sheet))).
Defined.

(** C1 as stated fails: a negative count in the sheet is still negative in
    [raw_df]. *)
Lemma negative_review_count_kept :
  ~ Forall (fun r => Company_Name r <> None
                     /\ Standardized_Category r <> None
                     /\ 0 <= Review_Count r)
           (raw_df parse_decimal negative_sheet).
Proof.
  intros H. inversion H as [|r l [_ [_ Hr]] _]; subst.
  simpl in Hr. vm_compute in Hr. now apply Hr.
Qed.

(** C3 (as amended). The category of a row of [raw_df] is the image under
    [category_mapping] of the category of a row of the sheet. It is a
    member of the eight fixed categories exactly when the sheet's value is
    a key of the table or already one of the eight; a value that is not a
    key is kept as it is. *)
Theorem raw_df_category parse (sheet : list SheetRow) (r : Row) (c : string) :
  In r (raw_df parse sheet) ->
  Standardized_Category r = Some c ->
  exists s c0,
    In s sheet
    /\ sheet_Standardized_Category s = Some c0
    /\ c = replace category_mapping c0
    /\ (In c available_categories
        <-> In c0 (map fst category_mapping) \/ In c0 available_categories)
    /\ (~ In c0 (map fst category_mapping) -> c = c0).
Proof.
  intros Hr Hc. apply in_raw_df in Hr as (s & Hin & _ & _ & ->).
  simpl in Hc. destruct (sheet_Standardized_Category s) as [c0|] eqn:E;
    [|discriminate].
  simpl in Hc. injection Hc as <-.
  exists s, c0. repeat split; try assumption.
  - apply replace_category_available.
  - apply replace_category_available.
  - intros Hk. unfold replace. now rewrite lookup_None.
Qed.

Lemma raw_df_category_witness :
  exists s c0,
    In s untidy_sheet
    /\ sheet_Standardized_Category s = Some c0
    /\ "Unavailability of Specialists" = replace category_mapping c0
    /\ (In "Unavailability of Specialists" available_categories
        <-> In c0 (map fst category_mapping) \/ In c0 available_categories)
    /\ (~ In c0 (map fst category_mapping)
        -> "Unavailability of Specialists" = c0).
Proof.
  apply (@raw_df_category parse_decimal untidy_sheet
           {| Company_Name := Some "C";
              Company_Type := Some "High-Class Private Hospital";
              Company_Location := None;
              Standardized_Category := Some "Unavailability of Specialists";
              Review_Count := 0 |}).
  - vm_compute. right. left. reflexivity.
  - reflexivity.
Defined.

(** C3 as stated fails: 'Billing' is not a key of the table, stays
    'Billing', and is none of the eight categories. *)
Lemma unrecognised_category_kept :
  exists r, In r (raw_df parse_decimal billing_sheet)
            /\ Standardized_Category r = Some "Billing"
            /\ ~ In "Billing" available_categories.
Proof.
  eexists. split; [left; reflexivity|]. split; [reflexivity|].
  simpl. intros H. repeat destruct H as [H|H]; try discriminate H; exact H.
Qed.

(** ** Idempotence *)

Lemma clean_row_as_sheet_row parse (r : Row) :
  clean_row parse (as_sheet_row r)
  = {| Company_Name := Company_Name r;
       Company_Type := replace_cell company_type_mapping (Company_Type r);
       Company_Location := Company_Location r;
       Standardized_Category :=
         replace_cell category_mapping (Standardized_Category r);
       Review_Count := Review_Count r |}.
Proof.
  unfold clean_row, as_sheet_row, clean_review_count; simpl.
  now rewrite astype_int_inject_Z.
Qed.

Lemma replace_cell_idempotent m (c : option string) :
  (forall s, replace m (replace m s) = replace m s) ->
  replace_cell m (replace_cell m c) = replace_cell m c.
Proof. intros H. destruct c; simpl; [now rewrite H|reflexivity]. Qed.

Lemma clean_row_fixed parse (s : SheetRow) :
  clean_row parse (as_sheet_row (clean_row parse s)) = clean_row parse s.
Proof.
  rewrite clean_row_as_sheet_row. unfold clean_row at 2 3 4 5 6. simpl.
  rewrite (replace_cell_idempotent _ _ company_type_mapping_idempotent).
  rewrite (replace_cell_idempotent _ _ category_mapping_idempotent).
  reflexivity.
Qed.

(** C8. Reading the rows of [raw_df] as a sheet and cleaning them again
    gives [raw_df] back, row for row. *)
Theorem raw_df_idempotent parse (sheet : list SheetRow) :
  raw_df parse (map as_sheet_row (raw_df parse sheet)) = raw_df parse sheet.
Proof.
  unfold raw_df, dropna.
  induction sheet as [|s sheet IH]; [reflexivity|]. simpl.
  destruct (notna (sheet_Company_Name s)
            && notna (sheet_Standardized_Category s)) eqn:E; [|exact IH].
  apply andb_true_iff in E as [En Ec]. simpl.
  assert (K : notna (sheet_Company_Name s)
              && notna (replace_cell category_mapping
                          (sheet_Standardized_Category s)) = true).
  { rewrite En. simpl. apply notna_true. apply replace_cell_present.
    now apply notna_true. }
  rewrite K. simpl. rewrite clean_row_fixed. f_equal. exact IH.
Qed.

(** ** Sorted keys *)

Lemma before_trans (a b c : string) : before a b -> before b c -> before a c.
Proof.
  unfold before. intros H1 H2.
  apply String_as_OT.cmp_lt in H1. apply String_as_OT.cmp_lt in H2.
  apply String_as_OT.cmp_lt. eapply String_as_OT.lt_trans; eassumption.
Qed.

Lemma before_irrefl (a : string) : ~ before a a.
Proof.
  unfold before. intros H.
  assert (E : String.compare a a = Eq) by now apply String_as_OT.cmp_eq.
  congruence.
Qed.

Lemma compare_Gt_before (a b : string) : String.compare a b = Gt -> before b a.
Proof.
  unfold before. intros H. rewrite String.compare_antisym, H. reflexivity.
Qed.

Lemma insert_key_In (s x : string) (l : list string) :
  In x (insert_key s l) <-> x = s \/ In x l.
Proof.
  induction l as [|y l IH]; simpl.
  - intuition.
  - destruct (String.compare s y) eqn:E; simpl.
    + apply String.compare_eq_iff in E. subst. intuition.
    + intuition.
    + rewrite IH. intuition.
Qed.

Lemma sort_unique_In (x : string) (l : list string) :
  In x (sort_unique l) <-> In x l.
Proof.
  induction l as [|y l IH]; simpl; [reflexivity|].
  rewrite insert_key_In, IH. intuition.
Qed.

Lemma insert_key_sorted (s : string) (l : list string) :
  StronglySorted before l -> StronglySorted before (insert_key s l).
Proof.
  induction 1 as [|y l Hl IH Hy]; simpl.
  - repeat constructor.
  - destruct (String.compare s y) eqn:E.
    + now constructor.
    + constructor; [now constructor|].
      constructor; [exact E|].
      rewrite Forall_forall in *. intros z Hz.
      eapply before_trans; [exact E|now apply Hy].
    + constructor; [assumption|].
      rewrite Forall_forall in *. intros z Hz.
      apply insert_key_In in Hz as [->|Hz].
      * now apply compare_Gt_before.
      * now apply Hy.
Qed.

Lemma sort_unique_sorted (l : list string) :
  StronglySorted before (sort_unique l).
Proof.
  induction l; simpl; [constructor|now apply insert_key_sorted].
Qed.

Lemma sorted_NoDup (l : list string) : StronglySorted before l -> NoDup l.
Proof.
  induction 1 as [|y l Hl IH Hy]; constructor; [|assumption].
  intros Hin. rewrite Forall_forall in Hy.
  exact (before_irrefl (Hy _ Hin)).
Qed.

Lemma sort_unique_NoDup (l : list string) : NoDup (sort_unique l).
Proof. apply sorted_NoDup, sort_unique_sorted. Qed.

(** Two sorted lists of keys with the same members are the same list. *)
Lemma sorted_same_members (l1 l2 : list string) :
  StronglySorted before l1 -> StronglySorted before l2 ->
  (forall x, In x l1 <-> In x l2) -> l1 = l2.
Proof.
  intros H1. revert l2.
  induction H1 as [|a l1 Hl1 IH Ha]; intros l2 H2 Hm.
  - destruct l2 as [|b l2]; [reflexivity|].
    exfalso. apply (Hm b). now left.
  - destruct H2 as [|b l2 Hl2 Hb].
    + exfalso. apply (Hm a). now left.
    + rewrite Forall_forall in Ha, Hb.
      assert (a = b) as <-.
      { destruct (proj1 (Hm a) (or_introl eq_refl)) as [E|Hin]; [now symmetry|].
        destruct (proj2 (Hm b) (or_introl eq_refl)) as [E|Hin']; [assumption|].
        exfalso. apply (before_irrefl (a := a)).
        eapply before_trans; [exact (Ha _ Hin')|exact (Hb _ Hin)]. }
      f_equal. apply IH; [assumption|].
      intros x. split; intros Hx.
      * destruct (proj1 (Hm x) (or_intror Hx)) as [<-|Hx']; [|assumption].
        exfalso. exact (before_irrefl (Ha _ Hx)).
      * destruct (proj2 (Hm x) (or_intror Hx)) as [<-|Hx']; [|assumption].
        exfalso. exact (before_irrefl (Hb _ Hx)).
Qed.

Lemma sort_unique_members (l1 l2 : list string) :
  (forall x, In x l1 <-> In x l2) -> sort_unique l1 = sort_unique l2.
Proof.
  intros H. apply sorted_same_members; try apply sort_unique_sorted.
  intros x. rewrite !sort_unique_In. apply H.
Qed.

Lemma present_In (x : string) (l : list (option string)) :
  In x (present l) <-> In (Some x) l.
Proof.
  unfold present. rewrite in_flat_map. split.
  - intros ([y|] & Hy & Hx); simpl in Hx; [|contradiction].
    destruct Hx as [->|[]]. assumption.
  - intros H. exists (Some x). split; [assumption|now left].
Qed.

Lemma cell_eq_Some (c : option string) (s : string) :
  cell_eq c (Some s) = true <-> c = Some s.
Proof.
  destruct c as [a|]; simpl.
  - rewrite String.eqb_eq. split; congruence.
  - split; discriminate.
Qed.

Lemma mem_In (x : string) (l : list string) : mem x l = true <-> In x l.
Proof.
  unfold mem. rewrite existsb_exists. split.
  - intros (y & Hy & E). apply String.eqb_eq in E. now subst.
  - intros H. exists x. split; [assumption|apply String.eqb_refl].
Qed.

(** ** Groups and series *)


Lemma in_group_iff (c t : string) (r : Row) :
  in_group c t r = true
  <-> Standardized_Category r = Some c /\ Company_Type r = Some t.
Proof.
  unfold in_group. now rewrite andb_true_iff, !cell_eq_Some.
Qed.

Lemma key_categories_In (df : list Row) (c : string) :
  In c (key_categories df)
  <-> exists r, In r df /\ Standardized_Category r = Some c
                /\ Company_Type r <> None.
Proof.
  unfold key_categories. rewrite sort_unique_In, present_In, in_map_iff.
  split.
  - intros (r & E & Hr). apply filter_In in Hr as [Hin Hk].
    apply andb_true_iff in Hk as [_ Ht]. apply notna_true in Ht.
    exists r. auto.
  - intros (r & Hin & E & Ht). exists r. split; [assumption|].
    apply filter_In. split; [assumption|]. unfold has_keys.
    apply andb_true_iff. rewrite !notna_true. split; congruence.
Qed.

Lemma key_types_In (df : list Row) (t : string) :
  In t (key_types df)
  <-> exists r, In r df /\ Company_Type r = Some t
                /\ Standardized_Category r <> None.
Proof.
  unfold key_types. rewrite sort_unique_In, present_In, in_map_iff.
  split.
  - intros (r & E & Hr). apply filter_In in Hr as [Hin Hk].
    apply andb_true_iff in Hk as [Hc _]. apply notna_true in Hc.
    exists r. auto.
  - intros (r & Hin & E & Hc). exists r. split; [assumption|].
    apply filter_In. split; [assumption|]. unfold has_keys.
    apply andb_true_iff. rewrite !notna_true. split; congruence.
Qed.

Lemma group_keys_observed (df : list Row) (c t : string) (r : Row) :
  In r (filter (in_group c t) df) ->
  In c (key_categories df) /\ In t (key_types df).
Proof.
  intros H. apply filter_In in H as [Hin Hg].
  apply in_group_iff in Hg as [Hc Ht]. split.
  - apply key_categories_In. exists r. repeat split; congruence.
  - apply key_types_In. exists r. repeat split; congruence.
Qed.

Lemma series_get_app (s1 s2 : Series) (c t : string) :
  series_get (s1 ++ s2)%list c t
  = match series_get s1 c t with
    | Some v => Some v
    | None => series_get s2 c t
    end.
Proof.
  induction s1 as [|[[c' t'] v] s1 IH]; simpl; [reflexivity|].
  now destruct (String.eqb c c' && String.eqb t t').
Qed.

Section Grouping.

Variable agg : list Row -> Z.
Variable df : list Row.

Lemma series_get_entry (c' t' c t : string) :
  series_get (group_entry agg df c' t') c t
  = if String.eqb c c' && String.eqb t t' then at_key agg df c t else None.
Proof.
  unfold group_entry, at_key.
  destruct (String.eqb_spec c c') as [->|Hc];
    destruct (String.eqb_spec t t') as [->|Ht]; simpl;
    destruct (filter (in_group c' t') df) eqn:E; simpl;
    rewrite ?String.eqb_refl; simpl; try reflexivity.
  - destruct (String.eqb_spec c' c'); [|congruence].
    simpl. destruct (String.eqb_spec t t'); [congruence|reflexivity].
  - destruct (String.eqb_spec c c'); [congruence|reflexivity].
  - destruct (String.eqb_spec c c'); [congruence|reflexivity].
Qed.

Lemma series_get_block (c' c t : string) (ts : list string) :
  series_get (flat_map (group_entry agg df c') ts) c t
  = if String.eqb c c' && mem t ts then at_key agg df c t else None.
Proof.
  induction ts as [|t' ts IH]; simpl.
  - now rewrite andb_false_r.
  - rewrite series_get_app, series_get_entry, IH.
    destruct (String.eqb c c'); simpl; [|reflexivity].
    destruct (String.eqb t t'); simpl; [|reflexivity].
    now destruct (at_key agg df c t), (mem t ts).
Qed.

Lemma series_get_blocks (c t : string) (cs ts : list string) :
  series_get (flat_map (fun c' => flat_map (group_entry agg df c') ts) cs) c t
  = if mem c cs && mem t ts then at_key agg df c t else None.
Proof.
  induction cs as [|c' cs IH]; simpl; [reflexivity|].
  rewrite series_get_app, series_get_block, IH.
  destruct (String.eqb c c'); simpl; [|reflexivity].
  destruct (mem t ts); simpl.
  - now destruct (at_key agg df c t), (mem c cs).
  - now rewrite andb_false_r.
Qed.

(** Looking a key up in the grouped series gives the aggregate of its
    group, and nothing when the group is empty. *)
Lemma series_get_groupby (c t : string) :
  series_get (groupby_agg agg df) c t
  = match filter (in_group c t) df with
    | [] => None
    | g => Some (agg g)
    end.
Proof.
  unfold groupby_agg. rewrite series_get_blocks. fold (at_key agg df c t).
  destruct (mem c (key_categories df) && mem t (key_types df)) eqn:E;
    [reflexivity|].
  unfold at_key. destruct (filter (in_group c t) df) as [|r g] eqn:F;
    [reflexivity|].
  assert (Hr : In r (filter (in_group c t) df)) by (rewrite F; now left).
  apply group_keys_observed in Hr as [Hc Ht].
  apply mem_In in Hc, Ht. rewrite Hc, Ht in E. discriminate.
Qed.

Lemma in_groupby (e : (string * string) * Z) :
  In e (groupby_agg agg df)
  <-> exists c t, In c (key_categories df) /\ In t (key_types df)
                  /\ filter (in_group c t) df <> []
                  /\ e = ((c, t), agg (filter (in_group c t) df)).
Proof.
  unfold groupby_agg. rewrite in_flat_map. split.
  - intros (c & Hc & He). apply in_flat_map in He as (t & Ht & He).
    exists c, t. unfold group_entry in He.
    destruct (filter (in_group c t) df) eqn:F; simpl in He; [contradiction|].
    destruct He as [<-|[]]. repeat split; try assumption. discriminate.
  - intros (c & t & Hc & Ht & Hne & ->). exists c. split; [assumption|].
    apply in_flat_map. exists t. split; [assumption|].
    unfold group_entry.
    destruct (filter (in_group c t) df) eqn:F; [congruence|]. now left.
Qed.

(** The first-level keys of the series are the categories of the grouped
    rows; the second-level keys are their company types. *)
Lemma groupby_level0 :
  sort_unique (map (fun e => fst (fst e)) (groupby_agg agg df))
  = key_categories df.
Proof.
  apply sorted_same_members;
    [apply sort_unique_sorted|apply sort_unique_sorted|].
  intros c. rewrite sort_unique_In, in_map_iff. split.
  - intros (e & <- & He). apply in_groupby in He as (c & t & Hc & _ & _ & ->).
    exact Hc.
  - intros Hc. pose proof Hc as Hc'.
    apply key_categories_In in Hc' as (r & Hin & Ec & Ht).
    destruct (Company_Type r) as [t|] eqn:Et; [|congruence].
    assert (Hg : In r (filter (in_group c t) df)).
    { apply filter_In. split; [assumption|]. now apply in_group_iff. }
    exists ((c, t), agg (filter (in_group c t) df)). split; [reflexivity|].
    apply in_groupby. exists c, t. repeat split; try assumption.
    + now apply (group_keys_observed df c t r).
    + intros E. rewrite E in Hg. contradiction.
Qed.

Lemma groupby_level1 :
  sort_unique (map (fun e => snd (fst e)) (groupby_agg agg df))
  = key_types df.
Proof.
  apply sorted_same_members;
    [apply sort_unique_sorted|apply sort_unique_sorted|].
  intros t. rewrite sort_unique_In, in_map_iff. split.
  - intros (e & <- & He). apply in_groupby in He as (c & t & _ & Ht & _ & ->).
    exact Ht.
  - intros Ht. pose proof Ht as Ht'.
    apply key_types_In in Ht' as (r & Hin & Et & Hc).
    destruct (Standardized_Category r) as [c|] eqn:Ec; [|congruence].
    assert (Hg : In r (filter (in_group c t) df)).
    { apply filter_In. split; [assumption|]. now apply in_group_iff. }
    exists ((c, t), agg (filter (in_group c t) df)). split; [reflexivity|].
    apply in_groupby. exists c, t. repeat split; try assumption.
    + now apply (group_keys_observed df c t r).
    + intros E. rewrite E in Hg. contradiction.
Qed.

End Grouping.

(** ** Frames *)

Lemma get_map_columns (g : string -> Z) (t : string) (cols : list string) :
  get t (map (fun t' => (t', g t')) cols)
  = if mem t cols then Some (g t) else None.
Proof.
  induction cols as [|a cols IH]; simpl; [reflexivity|].
  destruct (String.eqb_spec t a) as [->|_]; simpl; [reflexivity|exact IH].
Qed.

Lemma get_set_cell (l t : string) (x : Z) (cs : list (string * Z)) :
  get t (set_cell l x cs)
  = match get t cs with
    | Some v => Some (if String.eqb t l then x else v)
    | None => None
    end.
Proof.
  induction cs as [|[a v] cs IH]; simpl; [reflexivity|].
  destruct (String.eqb_spec l a) as [->|Hla]; simpl.
  - destruct (String.eqb_spec t a) as [->|_]; [reflexivity|exact IH].
  - destruct (String.eqb_spec t a) as [->|_]; [|exact IH].
    destruct (String.eqb_spec a l); [congruence|reflexivity].
Qed.

Lemma get_app_cell (l t : string) (x : Z) (cs : list (string * Z)) :
  get t (cs ++ [(l, x)])%list
  = match get t cs with
    | Some v => Some v
    | None => if String.eqb t l then Some x else None
    end.
Proof.
  induction cs as [|[a v] cs IH]; simpl; [reflexivity|].
  now destruct (String.eqb t a).
Qed.

Lemma mem_app_one (t l : string) (cols : list string) :
  mem t (cols ++ [l])%list = mem t cols || String.eqb t l.
Proof.
  unfold mem. rewrite existsb_app. simpl. now rewrite orb_false_r.
Qed.

Lemma assign_Category (l : string) (v : WideRow -> Z) (f : Frame) :
  map Category (records (assign l v f)) = map Category (records f).
Proof.
  unfold assign. destruct (mem l (columns f)); simpl;
    rewrite map_map; reflexivity.
Qed.

Lemma assign_columns (l : string) (v : WideRow -> Z) (f : Frame) (t : string) :
  mem t (columns (assign l v f)) = mem t (columns f) || String.eqb t l.
Proof.
  unfold assign. destruct (mem l (columns f)) eqn:E; simpl.
  - destruct (String.eqb_spec t l) as [->|_].
    + now rewrite E.
    + now rewrite orb_false_r.
  - apply mem_app_one.
Qed.

(** Assigning a column whose value in each row is [val' category]. *)
Lemma assign_values (l : string) (v : WideRow -> Z) (f : Frame)
  (val : string -> string -> Z) (val' : string -> Z) :
  frame_values f val ->
  (forall r, In r (records f) -> v r = val' (Category r)) ->
  frame_values (assign l v f)
               (fun c t => if String.eqb t l then val' c else val c t).
Proof.
  intros Hf Hv r' Hr' t. rewrite assign_columns.
  unfold assign in Hr'. destruct (mem l (columns f)) eqn:E; simpl in Hr';
    apply in_map_iff in Hr' as (r & <- & Hr); simpl.
  - rewrite get_set_cell, (Hf r Hr t), (Hv r Hr).
    destruct (String.eqb_spec t l) as [->|_].
    + now rewrite E.
    + rewrite orb_false_r. now destruct (mem t (columns f)).
  - rewrite get_app_cell, (Hf r Hr t), (Hv r Hr).
    destruct (String.eqb_spec t l) as [->|_].
    + now rewrite E.
    + rewrite orb_false_r. now destruct (mem t (columns f)).
Qed.

Lemma frame_values_ext (f : Frame) (val val' : string -> string -> Z) :
  frame_values f val ->
  (forall c t, mem t (columns f) = true -> val c t = val' c t) ->
  frame_values f val'.
Proof.
  intros Hf He r Hr t. rewrite (Hf r Hr t).
  destruct (mem t (columns f)) eqn:E; [|reflexivity].
  now rewrite He.
Qed.

Lemma ensure_columns_Category (cts : list string) (f : Frame) :
  map Category (records (ensure_columns cts f)) = map Category (records f).
Proof.
  unfold ensure_columns. revert f.
  induction cts as [|ct cts IH]; intros f; simpl; [reflexivity|].
  rewrite IH. destruct (mem ct (columns f)); [reflexivity|].
  apply assign_Category.
Qed.

(** After the loop every listed column exists, and the frame still holds
    [val] provided [val] is 0 on the columns that had to be added. *)
Lemma ensure_columns_values (cts : list string) (f : Frame)
  (val : string -> string -> Z) :
  frame_values f val ->
  (forall c t, In t cts -> mem t (columns f) = false -> val c t = 0) ->
  frame_values (ensure_columns cts f) val
  /\ (forall t, mem t (columns (ensure_columns cts f))
                = mem t (columns f) || mem t cts).
Proof.
  unfold ensure_columns. revert f.
  induction cts as [|ct cts IH]; intros f Hf H0; simpl.
  - split; [assumption|]. intros t. now rewrite orb_false_r.
  - destruct (mem ct (columns f)) eqn:E.
    + destruct (IH f Hf) as [H1 H2].
      { intros c t Ht. apply H0. now right. }
      split; [assumption|]. intros t. rewrite H2.
      destruct (String.eqb_spec t ct) as [->|_]; [|reflexivity].
      now rewrite E.
    + assert (Hf' : frame_values (assign ct (fun _ => 0) f) val).
      { apply frame_values_ext
          with (val := fun c t => if String.eqb t ct then 0 else val c t).
        - apply assign_values with (val' := fun _ => 0); auto.
        - intros c t _. destruct (String.eqb_spec t ct) as [->|_];
            [|reflexivity].
          symmetry. apply H0; [now left|assumption]. }
      destruct (IH _ Hf') as [H1 H2].
      { intros c t Ht Hm. rewrite assign_columns in Hm.
        apply orb_false_iff in Hm as [Hm _]. apply H0; [now right|assumption]. }
      split; [assumption|]. intros t. rewrite H2, assign_columns.
      now rewrite orb_assoc.
Qed.

Lemma unstack_Category (fill_value : Z) (s : Series) :
  map Category (records (unstack fill_value s))
  = sort_unique (map (fun e => fst (fst e)) s).
Proof. unfold unstack; simpl. rewrite map_map. simpl. apply map_id. Qed.

Lemma unstack_values (fill_value : Z) (s : Series) :
  frame_values (unstack fill_value s)
    (fun c t => match series_get s c t with
                | Some v => v
                | None => fill_value
                end).
Proof.
  intros r Hr t. unfold unstack in *; simpl in *.
  apply in_map_iff in Hr as (c & <- & _). simpl.
  apply (get_map_columns
           (fun t => match series_get s c t with
                     | Some v => v
                     | None => fill_value
                     end)).
Qed.

Lemma sum_columns_values (f : Frame) (val : string -> string -> Z)
  (cts : list string) (r : WideRow) :
  frame_values f val -> In r (records f) ->
  (forall t, In t cts -> mem t (columns f) = true) ->
  sum_columns cts r = sum_Z (map (val (Category r)) cts).
Proof.
  intros Hf Hr Hc. unfold sum_columns. f_equal.
  apply map_ext_in. intros t Ht. unfold at_label.
  now rewrite (Hf r Hr t), (Hc t Ht).
Qed.

(** ** Sums over groups *)

Lemma sum_Z_map_add (A : Type) (f g : A -> Z) (l : list A) :
  sum_Z (map (fun x => f x + g x) l) = sum_Z (map f l) + sum_Z (map g l).
Proof. induction l; simpl; lia. Qed.

Lemma sum_Z_map_zero (A : Type) (l : list A) : sum_Z (map (fun _ => 0) l) = 0.
Proof. induction l; simpl; lia. Qed.

Lemma sum_indicator (k0 : string) (x : Z) (idx : list string) :
  NoDup idx ->
  sum_Z (map (fun k => if String.eqb k0 k then x else 0) idx)
  = if mem k0 idx then x else 0.
Proof.
  induction 1 as [|k idx Hk Hnd IH]; simpl; [reflexivity|].
  rewrite IH. destruct (String.eqb_spec k0 k) as [->|_]; simpl; [|reflexivity].
  destruct (mem k idx) eqn:E; [|lia].
  apply mem_In in E. contradiction.
Qed.

(** Summing the groups of the keys [idx] one by one is summing the rows
    whose key is one of [idx]. *)
Lemma sum_by_key (key : Row -> option string) (p : Row -> bool)
  (w : Row -> Z) (idx : list string) (l : list Row) :
  NoDup idx ->
  sum_Z (map (fun k =>
                sum_Z (map w (filter (fun r => cell_eq (key r) (Some k) && p r) l)))
             idx)
  = sum_Z (map w (filter (fun r => key_in idx (key r) && p r) l)).
Proof.
  intros Hnd. induction l as [|r l IH]; simpl.
  - apply sum_Z_map_zero.
  - rewrite (map_ext
               (fun k => sum_Z (map w (if cell_eq (key r) (Some k) && p r
                                       then r :: filter (fun r => cell_eq (key r) (Some k) && p r) l
                                       else filter (fun r => cell_eq (key r) (Some k) && p r) l)))
               (fun k => (if cell_eq (key r) (Some k) && p r then w r else 0)
                         + sum_Z (map w (filter (fun r => cell_eq (key r) (Some k) && p r) l)))).
    2:{ intros k. destruct (cell_eq (key r) (Some k) && p r); simpl; lia. }
    rewrite sum_Z_map_add, IH.
    assert (E : sum_Z (map (fun k => if cell_eq (key r) (Some k) && p r
                                     then w r else 0) idx)
                = if key_in idx (key r) && p r then w r else 0).
    { destruct (p r).
      - destruct (key r) as [k0|]; simpl.
        + rewrite (map_ext _ (fun k => if String.eqb k0 k then w r else 0)).
          * rewrite andb_true_r. now apply sum_indicator.
          * intros k. now rewrite andb_true_r.
        + apply sum_Z_map_zero.
      - rewrite andb_false_r.
        rewrite (map_ext _ (fun _ => 0)).
        + apply sum_Z_map_zero.
        + intros k. now rewrite andb_false_r. }
    rewrite E. destruct (key_in idx (key r) && p r); simpl; lia.
Qed.

Lemma size_as_sum (g : list Row) : size g = sum_Z (map (fun _ => 1) g).
Proof.
  unfold size, sum_Z. induction g as [|r g IH]; [reflexivity|].
  cbn [List.length map fold_right]. rewrite Nat2Z.inj_succ. lia.
Qed.

Lemma count_rows_as_sum (p : Row -> bool) (df : list Row) :
  count_rows p df = sum_Z (map (fun _ => 1) (filter p df)).
Proof. apply size_as_sum. Qed.

Lemma company_types_NoDup : NoDup company_types.
Proof.
  unfold company_types.
  repeat (constructor;
          [simpl; intros H; repeat destruct H as [H|H];
           try discriminate H; exact H|]).
  constructor.
Qed.

Section Weights.

Variable w : Row -> Z.
Variable df : list Row.

(** Over all categories, the groups of one company type add up to the
    rows of that type that have a category. *)
Lemma sum_over_categories (t : string) :
  sum_Z (map (fun c => sum_Z (map w (filter (in_group c t) df)))
             (key_categories df))
  = sum_Z (map w (filter (fun r => notna (Standardized_Category r)
                                   && of_type t r) df)).
Proof.
  etransitivity.
  { exact (sum_by_key Standardized_Category (of_type t) w df
             (sort_unique_NoDup
                (present (map Standardized_Category (filter has_keys df))))). }
  do 2 f_equal. apply filter_ext_in. intros r Hr.
  fold (key_categories df).
  destruct (of_type t r) eqn:Et; [|now rewrite !andb_false_r].
  rewrite !andb_true_r.
  destruct (Standardized_Category r) as [c|] eqn:Ec; simpl; [|reflexivity].
  apply mem_In. apply key_categories_In. exists r.
  apply cell_eq_Some in Et. repeat split; congruence.
Qed.

(** Over the listed company types, the rows of each type add up to the
    rows whose type is listed. *)
Lemma sum_over_types (cts : list string) (p : Row -> bool) :
  NoDup cts ->
  sum_Z (map (fun t => sum_Z (map w (filter (fun r => p r && of_type t r) df)))
             cts)
  = sum_Z (map w (filter (fun r => p r && has_type_in cts r) df)).
Proof.
  intros Hnd.
  rewrite (map_ext _ (fun t => sum_Z (map w (filter
             (fun r => cell_eq (Company_Type r) (Some t) && p r) df)))).
  - rewrite (sum_by_key Company_Type p w df Hnd).
    do 2 f_equal. apply filter_ext. intros r. apply andb_comm.
  - intros t. f_equal. f_equal. apply filter_ext. intros r. apply andb_comm.
Qed.

End Weights.

(** ** The two tables *)

Section Pivot.

Variable agg : list Row -> Z.
Hypothesis agg_nil : agg [] = 0.
Variable df : list Row.

Lemma unstack_groupby_values :
  frame_values (unstack 0 (groupby_agg agg df))
               (fun c t => agg (filter (in_group c t) df)).
Proof.
  eapply frame_values_ext; [apply unstack_values|].
  intros c t _. simpl. rewrite series_get_groupby.
  destruct (filter (in_group c t) df); [now rewrite agg_nil|reflexivity].
Qed.

Lemma unstack_groupby_columns :
  columns (unstack 0 (groupby_agg agg df)) = key_types df.
Proof. unfold unstack; simpl. apply groupby_level1. Qed.

Lemma empty_group (c t : string) :
  mem t (key_types df) = false -> filter (in_group c t) df = [].
Proof.
  intros Hm. destruct (filter (in_group c t) df) as [|r g] eqn:F;
    [reflexivity|].
  assert (Hr : In r (filter (in_group c t) df)) by (rewrite F; now left).
  apply group_keys_observed in Hr as [_ Ht]. apply mem_In in Ht. congruence.
Qed.

Lemma pivot_Category :
  map Category
      (records (add_Total (ensure_columns company_types
                             (unstack 0 (groupby_agg agg df)))))
  = key_categories df.
Proof.
  unfold add_Total.
  rewrite assign_Category, ensure_columns_Category, unstack_Category.
  apply groupby_level0.
Qed.

Lemma pivot_values :
  frame_values
    (add_Total (ensure_columns company_types (unstack 0 (groupby_agg agg df))))
    (fun c t =>
       if String.eqb t "Total"
       then sum_Z (map (fun ct => agg (filter (in_group c ct) df)) company_types)
       else agg (filter (in_group c t) df))
  /\ (forall t,
        mem t (columns (add_Total (ensure_columns company_types
                                     (unstack 0 (groupby_agg agg df)))))
        = mem t (key_types df) || mem t company_types || String.eqb t "Total").
Proof.
  destruct (ensure_columns_values company_types unstack_groupby_values)
    as [H1 H2].
  { intros c t _ Hm. rewrite unstack_groupby_columns in Hm.
    now rewrite empty_group. }
  split.
  - unfold add_Total.
    apply assign_values
      with (val' := fun c => sum_Z (map (fun ct => agg (filter (in_group c ct) df))
                                        company_types)); [assumption|].
    intros r Hr. apply (@sum_columns_values _ _ company_types r H1 Hr).
    intros t Ht. rewrite H2. apply mem_In in Ht. rewrite Ht.
    apply orb_true_r.
  - intros t. unfold add_Total.
    now rewrite assign_columns, H2, unstack_groupby_columns.
Qed.

(** In every row of the table the three listed columns and 'Total' are
    present; a listed column holds the aggregate of its group and
    'Total' holds the sum of the three. *)
Lemma pivot_row (r : WideRow) :
  In r (records (add_Total (ensure_columns company_types
                              (unstack 0 (groupby_agg agg df))))) ->
  (forall t, In t company_types ->
             get t (cells r)
             = Some (agg (filter (in_group (Category r) t) df)))
  /\ get "Total" (cells r)
     = Some (sum_Z (map (fun ct => agg (filter (in_group (Category r) ct) df))
                        company_types)).
Proof.
  intros Hr. destruct pivot_values as [Hv Hc]. split.
  - intros t Ht. rewrite (Hv r Hr t), Hc.
    pose proof Ht as Hm. apply mem_In in Hm. rewrite Hm, orb_true_r. simpl.
    simpl in Ht. repeat destruct Ht as [<-|Ht]; try reflexivity.
    contradiction.
  - rewrite (Hv r Hr "Total"), Hc. simpl. now rewrite orb_true_r.
Qed.

End Pivot.

Lemma company_counts_row (df : list Row) (r : WideRow) :
  In r (records (company_counts df)) ->
  (forall t, In t company_types ->
             get t (cells r) = Some (size (filter (in_group (Category r) t) df)))
  /\ get "Total" (cells r)
     = Some (sum_Z (map (fun ct => size (filter (in_group (Category r) ct) df))
                        company_types)).
Proof. apply (@pivot_row size eq_refl df r). Qed.

Lemma reviews_per_type_row (df : list Row) (r : WideRow) :
  In r (records (reviews_per_type df)) ->
  (forall t, In t company_types ->
             get t (cells r)
             = Some (sum_Review_Count (filter (in_group (Category r) t) df)))
  /\ get "Total" (cells r)
     = Some (sum_Z (map (fun ct =>
                           sum_Review_Count (filter (in_group (Category r) ct) df))
                        company_types)).
Proof. apply (@pivot_row sum_Review_Count eq_refl df r). Qed.

(** C2 (as amended). Both tables have one row for each category that
    occurs in a record with a company type, and no other row; the rows are
    in ascending order of the category text, each category once. *)
Theorem table_rows (df : list Row) :
  map Category (records (company_counts df)) = key_categories df
  /\ map Category (records (reviews_per_type df)) = key_categories df
  /\ StronglySorted before (key_categories df)
  /\ NoDup (key_categories df)
  /\ (forall c, In c (key_categories df)
                <-> exists r, In r df /\ Standardized_Category r = Some c
                              /\ Company_Type r <> None).
Proof.
  split; [apply (@pivot_Category size df)|].
  split; [apply (@pivot_Category sum_Review_Count df)|].
  split; [apply sort_unique_sorted|].
  split; [apply sort_unique_NoDup|].
  intros c. apply key_categories_In.
Qed.

(** C2 as stated fails: the worked example gives two rows, not eight; and
    with all eight categories present the rows come in alphabetical order,
    not in the order of [available_categories]. *)
Lemma table_rows_not_the_fixed_list :
  map Category (records (company_counts (raw_df parse_decimal example_sheet)))
    <> available_categories
  /\ map Category (records (reviews_per_type (raw_df parse_decimal example_sheet)))
    <> available_categories
  /\ map Category (records (company_counts (raw_df parse_decimal full_sheet)))
     = [ "Expensive Costs"; "Hostility"; "Others"; "Poor Compensation";
         "Slow Services or Lengthy Waiting Times";
         "Unavailability of Medication/Equipment";
         "Unavailability of Specialists"; "Unprofessional Staff" ]
  /\ map Category (records (company_counts (raw_df parse_decimal full_sheet)))
     <> available_categories.
Proof.
  repeat split; try (vm_compute; congruence).
Qed.

Lemma sum_Z_swap (f : string -> string -> Z) (cs ts : list string) :
  sum_Z (map (fun c => sum_Z (map (f c) ts)) cs)
  = sum_Z (map (fun t => sum_Z (map (fun c => f c t) cs)) ts).
Proof.
  induction ts as [|t ts IH]; simpl.
  - apply sum_Z_map_zero.
  - rewrite <- IH. apply sum_Z_map_add.
Qed.

(** Over the whole table, the sums of the three listed columns add up to
    the rows of the frame that have a category and a listed type. *)
Lemma sum_over_table (w : Row -> Z) (df : list Row) :
  sum_Z (map (fun c =>
                sum_Z (map (fun ct => sum_Z (map w (filter (in_group c ct) df)))
                           company_types))
             (key_categories df))
  = sum_Z (map w (filter (fun r => notna (Standardized_Category r)
                                   && has_type_in company_types r) df)).
Proof.
  rewrite (sum_Z_swap (fun c ct => sum_Z (map w (filter (in_group c ct) df)))).
  rewrite (map_ext _ _ (sum_over_categories w df)).
  apply (sum_over_types w df (fun r => notna (Standardized_Category r))
           company_types_NoDup).
Qed.

Lemma company_counts_Total_sum (df : list Row) :
  sum_Z (map (at_label "Total") (records (company_counts df)))
  = count_rows (fun r => notna (Standardized_Category r)
                         && has_type_in company_types r) df.
Proof.
  rewrite count_rows_as_sum, <- sum_over_table.
  rewrite <- (@pivot_Category size df), map_map.
  f_equal. apply map_ext_in. intros r Hr.
  destruct (company_counts_row df r Hr) as [_ Ht].
  unfold at_label. rewrite Ht. f_equal.
  apply map_ext. intros t. apply size_as_sum.
Qed.


Lemma raw_df_category_present parse (sheet : list SheetRow) (r : Row) :
  In r (raw_df parse sheet) -> notna (Standardized_Category r) = true.
Proof.
  intros Hr. apply notna_true.
  apply in_raw_df in Hr as (s & _ & _ & Hc & ->). simpl.
  now apply replace_cell_present.
Qed.

(** C5. In every row of [company_counts] the three listed columns and
    'Total' are present and 'Total' is the sum of the three; over all rows,
    the 'Total's add up to the number of rows of [raw_df] whose company
    type is one of the three. *)
Theorem company_counts_Total parse (sheet : list SheetRow) :
  (forall r, In r (records (company_counts (raw_df parse sheet))) ->
     exists g s h,
       get "Government Hospital" (cells r) = Some g
       /\ get "Small Private Hospital" (cells r) = Some s
       /\ get "High-Class Private Hospital" (cells r) = Some h
       /\ get "Total" (cells r) = Some (g + s + h))
  /\ sum_Z (map (at_label "Total") (records (company_counts (raw_df parse sheet))))
     = count_rows (has_type_in company_types) (raw_df parse sheet).
Proof.
  split.
  - intros r Hr. destruct (company_counts_row _ r Hr) as [Hc Ht].
    do 3 eexists. repeat split.
    + apply Hc. simpl. auto.
    + apply Hc. simpl. auto.
    + apply Hc. simpl. auto.
    + rewrite Ht. simpl. f_equal. lia.
  - rewrite company_counts_Total_sum. unfold count_rows. do 2 f_equal.
    apply filter_ext_in. intros r Hr.
    now rewrite (raw_df_category_present parse sheet r Hr).
Qed.

(** The worked example of the specification: three records, whose
    'Total's add up to 3, and the row of 'Hostility'. *)
Lemma company_counts_Total_witness :
  (exists g s h,
     get "Government Hospital" [("Government Hospital", 1);
                                ("Small Private Hospital", 1);
                                ("High-Class Private Hospital", 0);
                                ("Total", 2)] = Some g
     /\ get "Small Private Hospital" [("Government Hospital", 1);
                                      ("Small Private Hospital", 1);
                                      ("High-Class Private Hospital", 0);
                                      ("Total", 2)] = Some s
     /\ get "High-Class Private Hospital" [("Government Hospital", 1);
                                           ("Small Private Hospital", 1);
                                           ("High-Class Private Hospital", 0);
                                           ("Total", 2)] = Some h
     /\ get "Total" [("Government Hospital", 1);
                     ("Small Private Hospital", 1);
                     ("High-Class Private Hospital", 0);
                     ("Total", 2)] = Some (g + s + h))
  /\ sum_Z (map (at_label "Total")
              (records (company_counts (raw_df parse_decimal example_sheet))))
     = 3.
Proof.
  destruct (company_counts_Total parse_decimal example_sheet) as [Hrow Hsum].
  split.
  - apply (Hrow {| Category := "Hostility";
                   cells := [("Government Hospital", 1);
                             ("Small Private Hospital", 1);
                             ("High-Class Private Hospital", 0);
                             ("Total", 2)] |}).
    vm_compute. right. left. reflexivity.
  - rewrite Hsum. reflexivity.
Defined.

(** C4, at the failing input. A company reported twice under one category
    and type is counted twice: the cell holds the number of rows of the
    group (2), not the number of distinct companies in it (1). *)
Theorem company_counts_counts_rows :
  exists r,
    In r (records (company_counts (raw_df parse_decimal repeated_sheet)))
    /\ Category r = "Hostility"
    /\ get "Government Hospital" (cells r) = Some 2
    /\ size (filter (in_group "Hostility" "Government Hospital")
                    (raw_df parse_decimal repeated_sheet)) = 2
    /\ distinct_companies (raw_df parse_decimal repeated_sheet)
                          "Hostility" "Government Hospital" = 1.
Proof.
  eexists. split; [left; reflexivity|]. repeat split.
Qed.

(** ** The category pie chart *)

Lemma filter_filter_and (A : Type) (p q : A -> bool) (l : list A) :
  filter q (filter p l) = filter (fun x => p x && q x) l.
Proof.
  induction l as [|x l IH]; simpl; [reflexivity|].
  destruct (p x); simpl; [|exact IH].
  destruct (q x); [now rewrite IH|exact IH].
Qed.





(** ** Rows met for the first time *)

Section FirstOccurrences.

Variable A : Type.
Variable same : A -> A -> bool.
Hypothesis same_eq : forall x y, same x y = true <-> x = y.

Lemma same_refl (x : A) : same x x = true.
Proof. now apply same_eq. Qed.

Lemma same_sym (x y : A) : same x y = same y x.
Proof.
  destruct (same x y) eqn:E1, (same y x) eqn:E2; try reflexivity.
  - apply same_eq in E1. subst. rewrite same_refl in E2. discriminate.
  - apply same_eq in E2. subst. rewrite same_refl in E1. discriminate.
Qed.

Lemma first_occurrences_In (x : A) (l : list A) :
  In x (first_occurrences same l) <-> In x l.
Proof.
  induction l as [|y l IH]; simpl; [reflexivity|].
  rewrite filter_In, IH. split.
  - intros [H|[H _]]; auto.
  - intros [H|H]; [now left|].
    destruct (same y x) eqn:E.
    + left. now apply same_eq.
    + right. auto.
Qed.



(** [drop_duplicates] keeps exactly the first occurrences. *)
Lemma drop_duplicates_from_first (seen l : list A) :
  drop_duplicates_from same seen l
  = filter (fun y => negb (existsb (same y) seen)) (first_occurrences same l).
Proof.
  revert seen. induction l as [|x l IH]; intros seen; simpl; [reflexivity|].
  destruct (existsb (same x) seen) eqn:E; simpl.
  - rewrite IH, filter_filter_and. apply filter_ext_in. intros y _.
    destruct (same x y) eqn:Exy; simpl; [|reflexivity].
    apply same_eq in Exy. subst. now rewrite E.
  - f_equal. rewrite IH, filter_filter_and. apply filter_ext. intros y.
    simpl. rewrite negb_orb. now rewrite (same_sym y x).
Qed.

Lemma drop_duplicates_first (l : list A) :
  drop_duplicates same l = first_occurrences same l.
Proof.
  unfold drop_duplicates. rewrite drop_duplicates_from_first. simpl.
  induction (first_occurrences same l) as [|x l' IH]; simpl; congruence.
Qed.

Lemma first_occurrences_filter (p : A -> bool) (l : list A) :
  filter p (first_occurrences same l) = first_occurrences same (filter p l).
Proof.
  induction l as [|x l IH]; simpl; [reflexivity|].
  destruct (p x) eqn:E; simpl.
  - f_equal. rewrite <- IH, !filter_filter_and.
    apply filter_ext. intros y. apply andb_comm.
  - rewrite <- IH, filter_filter_and. apply filter_ext. intros y.
    destruct (same x y) eqn:Exy; simpl; [|reflexivity].
    apply same_eq in Exy. subst. now rewrite E.
Qed.

End FirstOccurrences.

Lemma map_filter_comm (A B : Type) (f : A -> B) (q : B -> bool) (l : list A) :
  filter q (map f l) = map f (filter (fun x => q (f x)) l).
Proof.
  induction l as [|x l IH]; simpl; [reflexivity|].
  destruct (q (f x)); simpl; now rewrite IH.
Qed.

(** A map that tells the rows of [l] apart carries first occurrences to
    first occurrences. *)
Lemma first_occurrences_map (A B : Type) (sameA : A -> A -> bool)
  (sameB : B -> B -> bool) (f : A -> B) (l : list A) :
  (forall x y, sameA x y = true <-> x = y) ->
  (forall x y, In x l -> In y l -> sameB (f x) (f y) = sameA x y) ->
  map f (first_occurrences sameA l) = first_occurrences sameB (map f l).
Proof.
  intros HA. induction l as [|x l IH]; intros Hf; simpl; [reflexivity|].
  f_equal. rewrite <- IH.
  - rewrite map_filter_comm. f_equal. apply filter_ext_in. intros y Hy.
    apply (proj1 (@first_occurrences_In _ sameA HA y l)) in Hy.
    rewrite Hf; [reflexivity|now left|now right].
  - intros a b Ha Hb. apply Hf; now right.
Qed.

(** ** The company directory *)

Lemma same_cell_eq (a b : option string) : same_cell a b = true <-> a = b.
Proof.
  destruct a as [x|], b as [y|]; simpl; try (split; congruence).
  rewrite String.eqb_eq. split; congruence.
Qed.

Lemma same_pair_eq (p q : Company) : same_pair p q = true <-> p = q.
Proof.
  destruct p as [a b], q as [c d]. unfold same_pair; simpl.
  rewrite andb_true_iff, !same_cell_eq. split.
  - intros [-> ->]. reflexivity.
  - intros [= -> ->]. auto.
Qed.

Lemma same_triple_eq (p q : option string * Company) :
  same_triple p q = true <-> p = q.
Proof.
  destruct p as [a b], q as [c d]. unfold same_triple; simpl.
  rewrite andb_true_iff, same_cell_eq, same_pair_eq. split.
  - intros [-> ->]. reflexivity.
  - intros [= -> ->]. auto.
Qed.



(** Selecting the row of one category in a frame with one row per key. *)
Lemma filter_keyed (B : Type) (F : string -> B) (s : string) (cats : list string) :
  NoDup cats ->
  filter (fun row : string * B => String.eqb (fst row) s)
         (map (fun c => (c, F c)) cats)
  = if mem s cats then [(s, F s)] else [].
Proof.
  induction 1 as [|c cats Hc Hnd IH]; simpl; [reflexivity|].
  rewrite IH. rewrite (String.eqb_sym s c).
  destruct (String.eqb_spec c s) as [->|_]; simpl; [|reflexivity].
  destruct (mem s cats) eqn:E; [|reflexivity].
  apply mem_In in E. contradiction.
Qed.

(** The companies listed under a category, as [company_breakdown] holds
    them. *)
Lemma company_breakdown_companies (df : list Row) (s : string) :
  map snd (filter (fun k => cell_eq (fst k) (Some s))
                  (drop_duplicates same_triple (map breakdown_key df)))
  = spec_directory df (Some s).
Proof.
  unfold spec_directory.
  rewrite (@drop_duplicates_first _ _ same_triple_eq).
  rewrite (@first_occurrences_filter _ _ same_triple_eq).
  rewrite (@first_occurrences_map _ _ same_triple same_pair snd _ same_triple_eq).
  - f_equal. rewrite map_filter_comm, map_map. reflexivity.
  - intros x y Hx Hy. apply filter_In in Hx as [_ Hx], Hy as [_ Hy].
    apply cell_eq_Some in Hx, Hy. destruct x as [a p], y as [b q].
    simpl in *. subst. unfold same_triple; simpl.
    now rewrite String.eqb_refl.
Qed.

Lemma update_company_breakdown_Some (df : list Row) (s : string) :
  update_company_breakdown df (Some s)
  = if mem s (sort_unique (present (map fst
                 (drop_duplicates same_triple (map breakdown_key df)))))
    then CompanyTable (spec_directory df (Some s))
    else NoCompanies.
Proof.
  unfold update_company_breakdown, company_breakdown.
  change (fun row : string * list Company => cell_eq (Some (fst row)) (Some s))
    with (fun row : string * list Company => String.eqb (fst row) s).
  rewrite (filter_keyed _ s (sort_unique_NoDup _)).
  destruct (mem s _); [|reflexivity].
  simpl. now rewrite company_breakdown_companies.
Qed.

Lemma breakdown_category_In (df : list Row) (s : string) :
  In s (sort_unique (present (map fst
          (drop_duplicates same_triple (map breakdown_key df)))))
  <-> exists r, In r df /\ Standardized_Category r = Some s.
Proof.
  rewrite sort_unique_In, present_In, in_map_iff. split.
  - intros (k & E & Hk). rewrite (@drop_duplicates_first _ _ same_triple_eq) in Hk.
    apply (proj1 (@first_occurrences_In _ _ same_triple_eq _ _)) in Hk.
    apply in_map_iff in Hk as (r & <- & Hr). exists r. auto.
  - intros (r & Hr & E). exists (breakdown_key r). split; [exact E|].
    rewrite (@drop_duplicates_first _ _ same_triple_eq).
    apply (proj2 (@first_occurrences_In _ _ same_triple_eq _ _)).
    now apply in_map.
Qed.

Lemma spec_directory_In (df : list Row) (c : option string) (p : Company) :
  In p (spec_directory df c)
  <-> exists r, In r df /\ cell_eq (Standardized_Category r) c = true
                /\ p = (Company_Name r, Company_Location r).
Proof.
  unfold spec_directory.
  rewrite (@first_occurrences_In _ _ same_pair_eq), in_map_iff. split.
  - intros (r & <- & Hr). apply filter_In in Hr as [Hr Hc]. exists r. auto.
  - intros (r & Hr & Hc & ->). exists r. split; [reflexivity|].
    apply filter_In. auto.
Qed.





(** ** The two selectors *)

Section Selectors.

Variable df : list Row.

Lemma dispatch_category (st : Layout) (c : option string) (q : property) :
  dispatch df st category_dropdown_value (Selected c) q
  = match q with
    | category_dropdown_value => Selected c
    | category_pie_chart_figure => Pie (update_category_pie df c)
    | _ => st q
    end.
Proof. now destruct q. Qed.

Lemma dispatch_breakdown_category (st : Layout) (c : option string)
  (q : property) :
  dispatch df st breakdown_category_dropdown_value (Selected c) q
  = match q with
    | breakdown_category_dropdown_value => Selected c
    | company_breakdown_table_children =>
        Children (update_company_breakdown df c)
    | _ => st q
    end.
Proof. now destruct q. Qed.

Lemma dispatch_hover (st : Layout) (q : property) :
  dispatch df st pie_chart_hoverData Hover q
  = match q with
    | pie_chart_hoverData => Hover
    | pie_chart_figure => Overview (category_reviews df)
    | stacked_bar_figure => Stacked (reviews_by_type df)
    | _ => st q
    end.
Proof. now destruct q. Qed.

(** After any sequence of events the pie chart is the one of the last
    category selected with its own selector, and the initial one when
    there was none. *)
Lemma run_events_pie (es : list event) (st : Layout) :
  run_events df st es category_pie_chart_figure
  = fold_left (fun _ c => Pie (update_category_pie df c))
              (category_selections es) (st category_pie_chart_figure).
Proof.
  unfold run_events. revert st.
  induction es as [|e es IH]; intros st; simpl; [reflexivity|].
  rewrite IH. destruct e; simpl; try reflexivity.
Qed.

Lemma run_events_breakdown (es : list event) (st : Layout) :
  run_events df st es company_breakdown_table_children
  = fold_left (fun _ c => Children (update_company_breakdown df c))
              (breakdown_selections es)
              (st company_breakdown_table_children).
Proof.
  unfold run_events. revert st.
  induction es as [|e es IH]; intros st; simpl; [reflexivity|].
  rewrite IH. destruct e; simpl; try reflexivity.
Qed.

End Selectors.

(** C9. Each of the two views is computed from the frame and its own
    selector only. Selecting a directory category leaves the pie chart as
    it was and selecting a pie category leaves the directory as it was;
    and two runs of the dashboard that agree on the selections made with
    one selector show the same view for it, whatever was done with the
    other selector. *)
Theorem selectors_independent (df : list Row) (st : Layout) :
  (forall x y,
     dispatch df (dispatch df st breakdown_category_dropdown_value (Selected x))
              breakdown_category_dropdown_value (Selected y)
              category_pie_chart_figure
     = dispatch df st breakdown_category_dropdown_value (Selected x)
                category_pie_chart_figure
     /\ dispatch df st breakdown_category_dropdown_value (Selected y)
                 category_pie_chart_figure
        = st category_pie_chart_figure)
  /\ (forall x y,
        dispatch df (dispatch df st category_dropdown_value (Selected x))
                 category_dropdown_value (Selected y)
                 company_breakdown_table_children
        = dispatch df st category_dropdown_value (Selected x)
                   company_breakdown_table_children
        /\ dispatch df st category_dropdown_value (Selected y)
                    company_breakdown_table_children
           = st company_breakdown_table_children)
  /\ (forall c,
        dispatch df st category_dropdown_value (Selected c)
                 category_pie_chart_figure
        = Pie (update_category_pie df c)
        /\ dispatch df st breakdown_category_dropdown_value (Selected c)
                    company_breakdown_table_children
           = Children (update_company_breakdown df c))
  /\ (forall es es',
        category_selections es = category_selections es' ->
        run_events df st es category_pie_chart_figure
        = run_events df st es' category_pie_chart_figure)
  /\ (forall es es',
        breakdown_selections es = breakdown_selections es' ->
        run_events df st es company_breakdown_table_children
        = run_events df st es' company_breakdown_table_children).
Proof.
  split; [intros x y; split; reflexivity|].
  split; [intros x y; split; reflexivity|].
  split; [intros c; split; reflexivity|].
  split.
  - intros es es' E. rewrite !run_events_pie. now rewrite E.
  - intros es es' E. rewrite !run_events_breakdown. now rewrite E.
Qed.

(** Two runs that select 'Hostility' for the pie chart and differ in
    everything done with the directory selector. *)
Lemma selectors_independent_witness :
  run_events (raw_df parse_decimal example_sheet) (fun _ => Undefined)
             [ select_breakdown_category (Some "Others");
               select_category (Some "Hostility");
               select_breakdown_category (Some "Expensive Costs") ]
             category_pie_chart_figure
  = run_events (raw_df parse_decimal example_sheet) (fun _ => Undefined)
               [ select_category (Some "Hostility"); hover;
                 select_breakdown_category None ]
               category_pie_chart_figure.
Proof.
  apply (selectors_independent (raw_df parse_decimal example_sheet)
           (fun _ => Undefined)).
  reflexivity.
Defined.

(** ** The worked example of the specification *)

Lemma worked_example :
  records (company_counts (raw_df parse_decimal example_sheet))
  = [ {| Category := "Expensive Costs";
         cells := [("Government Hospital", 1); ("Small Private Hospital", 0);
                   ("High-Class Private Hospital", 0); ("Total", 1)] |};
      {| Category := "Hostility";
         cells := [("Government Hospital", 1); ("Small Private Hospital", 1);
                   ("High-Class Private Hospital", 0); ("Total", 2)] |} ]
  /\ records (reviews_per_type (raw_df parse_decimal example_sheet))
     = [ {| Category := "Expensive Costs";
            cells := [("Government Hospital", 2); ("Small Private Hospital", 0);
                      ("High-Class Private Hospital", 0); ("Total", 2)] |};
         {| Category := "Hostility";
            cells := [("Government Hospital", 10); ("Small Private Hospital", 5);
                      ("High-Class Private Hospital", 0); ("Total", 15)] |} ]
  /\ update_company_breakdown (raw_df parse_decimal example_sheet)
                              (Some "Hostility")
     = CompanyTable [(Some "A", Some "locA"); (Some "B", Some "locB")]
  /\ update_category_pie (raw_df parse_decimal example_sheet)
                         (Some "Expensive Costs")
     = {| pie_title := Some "Expensive Costs";
          category_by_type := [("Government Hospital", 2)];
          total_reviews := 2 |}.
Proof. repeat split. Qed.

(* ================================================================== *)
(** * Further properties of the pipeline *)

(** ** Cleaning, row by row *)




Lemma replace_company_type_not_synonym (s : string) :
  replace company_type_mapping s <> "Modern/High-Class Private Hospital".
Proof.
  unfold replace, company_type_mapping; simpl.
  destruct (String.eqb_spec s "Modern/High-Class Private Hospital") as [->|H].
  - discriminate.
  - exact H.
Qed.

Lemma replace_category_not_synonym (s : string) :
  replace category_mapping s <> "Unavailability of Specialist".
Proof.
  unfold replace. destruct (lookup category_mapping s) as [v|] eqn:E.
  - apply lookup_Some in E. intros ->.
    pose proof category_mapping_values as V. rewrite Forall_forall in V.
    apply V in E. simpl in E.
    repeat destruct E as [E|E]; try discriminate E; exact E.
  - intros ->. discriminate E.
Qed.

(** X2. The two synonyms the mappings rewrite never survive cleaning: no
    row of [raw_df] has the company type 'Modern/High-Class Private
    Hospital' or the category 'Unavailability of Specialist'. *)
Theorem synonyms_rewritten parse (sheet : list SheetRow) (r : Row) :
  In r (raw_df parse sheet) ->
  Company_Type r <> Some "Modern/High-Class Private Hospital"
  /\ Standardized_Category r <> Some "Unavailability of Specialist".
Proof.
  intros Hr. apply in_raw_df in Hr as (s & _ & _ & _ & ->). simpl. split.
  - destruct (sheet_Company_Type s) as [t|]; simpl; [|discriminate].
    intros [= E]. now apply replace_company_type_not_synonym in E.
  - destruct (sheet_Standardized_Category s) as [c|]; simpl; [|discriminate].
    intros [= E]. now apply replace_category_not_synonym in E.
Qed.

Lemma synonyms_rewritten_witness :
  Some "High-Class Private Hospital" <> Some "Modern/High-Class Private Hospital"
  /\ Some "Unavailability of Specialists" <> Some "Unavailability of Specialist".
Proof.
  apply (@synonyms_rewritten parse_decimal untidy_sheet
           {| Company_Name := Some "C";
              Company_Type := Some "High-Class Private Hospital";
              Company_Location := None;
              Standardized_Category := Some "Unavailability of Specialists";
              Review_Count := 0 |}).
  vm_compute. right. left. reflexivity.
Defined.

(** ** The tables, cell by cell *)



(** X4. Every cell of [company_counts] other than 'Total' holds the number
    of rows of the frame with the row's category and the column's company
    type. There is such a cell, 0 when no row matches, for each of the
    three listed types and for every other company type that occurs with
    a category; there is none for any other label. *)
Theorem company_counts_cells (df : list Row) (r : WideRow) (t : string) :
  In r (records (company_counts df)) ->
  t <> "Total" ->
  get t (cells r)
  = if mem t (key_types df) || mem t company_types
    then Some (size (filter (in_group (Category r) t) df))
    else None.
Proof.
  intros Hr Ht. destruct (@pivot_values size eq_refl df) as [Hv Hc].
  fold (company_counts df) in Hv, Hc.
  rewrite (Hv r Hr t), Hc.
  destruct (String.eqb_spec t "Total") as [->|_]; [congruence|].
  now rewrite orb_false_r.
Qed.

Lemma company_counts_cells_witness :
  get "Clinic" [("Clinic", 1); ("Government Hospital", 1);
                ("Small Private Hospital", 0);
                ("High-Class Private Hospital", 0); ("Total", 1)]
  = Some 1.
Proof.
  apply (@company_counts_cells (raw_df parse_decimal clinic_sheet)
           {| Category := "Hostility";
              cells := [("Clinic", 1); ("Government Hospital", 1);
                        ("Small Private Hospital", 0);
                        ("High-Class Private Hospital", 0); ("Total", 1)] |}
           "Clinic").
  - vm_compute. left. reflexivity.
  - discriminate.
Defined.

(** ** The shape of the tables *)

Lemma assign_columns_list (l : string) (v : WideRow -> Z) (f : Frame) :
  columns (assign l v f)
  = if mem l (columns f) then columns f else (columns f ++ [l])%list.
Proof. unfold assign. now destruct (mem l (columns f)). Qed.

Lemma ensure_columns_list (cts : list string) (f f' : Frame) :
  columns f = columns f' ->
  columns (ensure_columns cts f) = columns (ensure_columns cts f').
Proof.
  unfold ensure_columns. revert f f'.
  induction cts as [|ct cts IH]; intros f f' E; simpl; [assumption|].
  apply IH. rewrite <- E. destruct (mem ct (columns f)); [assumption|].
  rewrite !assign_columns_list, <- E. reflexivity.
Qed.

Lemma set_cell_labels (l : string) (x : Z) (cs : list (string * Z)) :
  map fst (set_cell l x cs) = map fst cs.
Proof.
  unfold set_cell. rewrite map_map. apply map_ext. intros [a v]; simpl.
  now destruct (String.eqb l a).
Qed.

Lemma assign_same_labels (l : string) (v : WideRow -> Z) (f : Frame) :
  same_labels f -> same_labels (assign l v f).
Proof.
  unfold same_labels. rewrite !Forall_forall. intros H r' Hr'.
  rewrite assign_columns_list. unfold assign in Hr'.
  destruct (mem l (columns f)); simpl in Hr';
    apply in_map_iff in Hr' as (r & <- & Hr); simpl.
  - rewrite set_cell_labels. now apply H.
  - rewrite map_app. simpl. f_equal. now apply H.
Qed.

Lemma ensure_columns_same_labels (cts : list string) (f : Frame) :
  same_labels f -> same_labels (ensure_columns cts f).
Proof.
  unfold ensure_columns. revert f.
  induction cts as [|ct cts IH]; intros f H; simpl; [assumption|].
  apply IH. destruct (mem ct (columns f)); [assumption|].
  now apply assign_same_labels.
Qed.

Lemma unstack_same_labels (fill_value : Z) (s : Series) :
  same_labels (unstack fill_value s).
Proof.
  unfold same_labels, unstack; simpl. apply Forall_forall.
  intros r Hr. apply in_map_iff in Hr as (c & <- & _). simpl.
  rewrite map_map. simpl. apply map_id.
Qed.

Lemma pivot_same_labels (agg : list Row -> Z) (df : list Row) :
  same_labels (add_Total (ensure_columns company_types
                            (unstack 0 (groupby_agg agg df)))).
Proof.
  apply assign_same_labels, ensure_columns_same_labels, unstack_same_labels.
Qed.

Lemma pivot_columns (agg agg' : list Row -> Z) (df : list Row) :
  columns (add_Total (ensure_columns company_types
                        (unstack 0 (groupby_agg agg df))))
  = columns (add_Total (ensure_columns company_types
                          (unstack 0 (groupby_agg agg' df)))).
Proof.
  unfold add_Total. rewrite !assign_columns_list.
  assert (E : columns (ensure_columns company_types
                         (unstack 0 (groupby_agg agg df)))
              = columns (ensure_columns company_types
                           (unstack 0 (groupby_agg agg' df)))).
  { apply ensure_columns_list. unfold unstack; simpl.
    now rewrite !groupby_level1. }
  now rewrite E.
Qed.

(** X5. The two tables have the same shape: the same column labels in the
    same order, the same categories row by row, and in both every record
    carries exactly the columns of its table, in order. The columns include
    the three listed types and 'Total'. *)
Theorem tables_same_shape (df : list Row) :
  columns (company_counts df) = columns (reviews_per_type df)
  /\ map Category (records (company_counts df))
     = map Category (records (reviews_per_type df))
  /\ Forall (fun r => map fst (cells r) = columns (company_counts df))
            (records (company_counts df))
  /\ Forall (fun r => map fst (cells r) = columns (reviews_per_type df))
            (records (reviews_per_type df))
  /\ (forall t, In t ("Total" :: company_types) ->
                In t (columns (company_counts df))).
Proof.
  split; [apply (pivot_columns size sum_Review_Count df)|].
  split.
  { transitivity (key_categories df).
    - apply (@pivot_Category size df).
    - symmetry. apply (@pivot_Category sum_Review_Count df). }
  split; [apply (pivot_same_labels size df)|].
  split; [apply (pivot_same_labels sum_Review_Count df)|].
  intros t Ht. apply mem_In.
  destruct (@pivot_values size eq_refl df) as [_ Hc].
  fold (company_counts df) in Hc. rewrite Hc.
  destruct Ht as [<-|Ht].
  - now rewrite orb_true_r.
  - apply mem_In in Ht. rewrite Ht. now rewrite orb_true_r.
Qed.

Lemma size_zero (g : list Row) : size g = 0 -> g = [].
Proof. unfold size. destruct g; [reflexivity|]. simpl. lia. Qed.

(** X6. Where the count table shows 0 for a category and one of the three
    listed types, the reviews table shows 0 for the same category and
    type. *)
Theorem zero_count_zero_reviews (df : list Row) (rc rr : WideRow) (t : string) :
  In rc (records (company_counts df)) ->
  In rr (records (reviews_per_type df)) ->
  Category rc = Category rr ->
  In t company_types ->
  get t (cells rc) = Some 0 ->
  get t (cells rr) = Some 0.
Proof.
  intros Hc Hr E Ht H0.
  destruct (company_counts_row df rc Hc) as [Hcc _].
  destruct (reviews_per_type_row df rr Hr) as [Hrr _].
  rewrite (Hcc t Ht) in H0. injection H0 as H0. apply size_zero in H0.
  rewrite (Hrr t Ht), <- E, H0. reflexivity.
Qed.

Lemma zero_count_zero_reviews_witness :
  get "Small Private Hospital"
      [("Government Hospital", 2); ("Small Private Hospital", 0);
       ("High-Class Private Hospital", 0); ("Total", 2)] = Some 0.
Proof.
  apply (@zero_count_zero_reviews (raw_df parse_decimal example_sheet)
           {| Category := "Expensive Costs";
              cells := [("Government Hospital", 1);
                        ("Small Private Hospital", 0);
                        ("High-Class Private Hospital", 0); ("Total", 1)] |}
           {| Category := "Expensive Costs";
              cells := [("Government Hospital", 2);
                        ("Small Private Hospital", 0);
                        ("High-Class Private Hospital", 0); ("Total", 2)] |}
           "Small Private Hospital").
  - vm_compute. left. reflexivity.
  - vm_compute. left. reflexivity.
  - reflexivity.
  - simpl. auto.
  - reflexivity.
Defined.





(** ** The overview charts *)











(** ** The category pie chart and the stacked chart *)

Lemma existsb_filter (A : Type) (p : A -> bool) (l : list A) :
  existsb p l = match filter p l with [] => false | _ => true end.
Proof.
  induction l as [|x l IH]; simpl; [reflexivity|].
  destruct (p x); simpl; [reflexivity|exact IH].
Qed.

Lemma group_entry_existsb (agg : list Row -> Z) (df : list Row) (c t : string) :
  group_entry agg df c t
  = if existsb (in_group c t) df
    then [((c, t), agg (filter (in_group c t) df))]
    else [].
Proof.
  unfold group_entry. rewrite existsb_filter.
  now destruct (filter (in_group c t) df).
Qed.

Lemma filter_flat_map (A B : Type) (p : B -> bool) (f : A -> list B)
  (l : list A) :
  filter p (flat_map f l) = flat_map (fun x => filter p (f x)) l.
Proof.
  induction l as [|x l IH]; simpl; [reflexivity|].
  now rewrite filter_app, IH.
Qed.

Lemma flat_map_nil (A B : Type) (f : A -> list B) (l : list A) :
  (forall x, In x l -> f x = []) -> flat_map f l = [].
Proof.
  induction l as [|x l IH]; intros H; simpl; [reflexivity|].
  rewrite (H x (or_introl eq_refl)). simpl. apply IH.
  intros y Hy. apply H. now right.
Qed.

Section Slices.

Variable agg : list Row -> Z.
Variable df : list Row.

(** The entries of one category in a block of the series. *)
Lemma slice_block (c c' : string) (ts : list string) :
  filter (fun e : (string * string) * Z => String.eqb (fst (fst e)) c)
         (flat_map (group_entry agg df c') ts)
  = if String.eqb c' c then flat_map (group_entry agg df c') ts else [].
Proof.
  rewrite filter_flat_map.
  destruct (String.eqb c' c) eqn:E.
  - apply flat_map_ext. intros t. rewrite group_entry_existsb.
    destruct (existsb (in_group c' t) df); simpl; [|reflexivity].
    now rewrite E.
  - apply flat_map_nil. intros t _. rewrite group_entry_existsb.
    destruct (existsb (in_group c' t) df); simpl; [|reflexivity].
    now rewrite E.
Qed.

Lemma slice_blocks (c : string) (cs ts : list string) :
  NoDup cs ->
  filter (fun e : (string * string) * Z => String.eqb (fst (fst e)) c)
         (flat_map (fun c' => flat_map (group_entry agg df c') ts) cs)
  = if mem c cs then flat_map (group_entry agg df c) ts else [].
Proof.
  induction 1 as [|c' cs Hc Hnd IH]; simpl; [reflexivity|].
  rewrite filter_app, slice_block, IH. rewrite (String.eqb_sym c c').
  destruct (String.eqb_spec c' c) as [->|_]; simpl; [|reflexivity].
  destruct (mem c cs) eqn:M.
  - apply mem_In in M. contradiction.
  - apply app_nil_r.
Qed.

Lemma block_unobserved (c : string) (ts : list string) :
  mem c (key_categories df) = false ->
  flat_map (group_entry agg df c) ts = [].
Proof.
  intros M. apply flat_map_nil. intros t _. unfold group_entry.
  destruct (filter (in_group c t) df) as [|r g] eqn:F; [reflexivity|].
  assert (Hr : In r (filter (in_group c t) df)) by (rewrite F; now left).
  apply group_keys_observed in Hr as [Hc _]. apply mem_In in Hc. congruence.
Qed.

Lemma series_slice_groupby (c : string) :
  series_slice c (groupby_agg agg df)
  = map (fun e : (string * string) * Z => (snd (fst e), snd e))
        (flat_map (group_entry agg df c) (key_types df)).
Proof.
  unfold series_slice, groupby_agg. f_equal.
  rewrite (@slice_blocks c (key_categories df) (key_types df)
             (sort_unique_NoDup _)).
  destruct (mem c (key_categories df)) eqn:M; [reflexivity|].
  symmetry. now apply block_unobserved.
Qed.

Lemma block_as_map (c : string) (ts : list string) :
  map (fun e : (string * string) * Z => (snd (fst e), snd e))
      (flat_map (group_entry agg df c) ts)
  = map (fun t => (t, agg (filter (in_group c t) df)))
        (filter (fun t => existsb (in_group c t) df) ts).
Proof.
  induction ts as [|t ts IH]; simpl; [reflexivity|].
  rewrite map_app, IH, group_entry_existsb.
  now destruct (existsb (in_group c t) df).
Qed.

End Slices.

Lemma sorted_filter (p : string -> bool) (l : list string) :
  StronglySorted before l -> StronglySorted before (filter p l).
Proof.
  induction 1 as [|x l Hl IH Hx]; simpl; [constructor|].
  destruct (p x); [|assumption].
  constructor; [assumption|].
  rewrite Forall_forall in *. intros y Hy. apply filter_In in Hy.
  now apply Hx.
Qed.

(** The company types that occur in a category, in the order of the
    columns. *)
Lemma types_of_category (df : list Row) (c : string) :
  filter (fun t => existsb (in_group c t) df) (key_types df)
  = sort_unique (present (map Company_Type (filter (in_category c) df))).
Proof.
  apply sorted_same_members.
  - apply sorted_filter, sort_unique_sorted.
  - apply sort_unique_sorted.
  - intros t. rewrite filter_In, sort_unique_In, present_In, in_map_iff,
      existsb_exists. split.
    + intros [_ (r & Hr & Hg)]. apply in_group_iff in Hg as [Hc Ht].
      exists r. split; [assumption|]. apply filter_In. split; [assumption|].
      now apply cell_eq_Some.
    + intros (r & Ht & Hr). apply filter_In in Hr as [Hr Hc].
      apply cell_eq_Some in Hc.
      assert (Hg : in_group c t r = true) by now apply in_group_iff.
      split; [|now exists r].
      apply (group_keys_observed df c t r). apply filter_In. auto.
Qed.

Lemma category_by_type_slice (df : list Row) (c : string) :
  category_by_type (update_category_pie df (Some c))
  = series_slice c (reviews_by_type df).
Proof.
  unfold reviews_by_type.
  rewrite series_slice_groupby, block_as_map, types_of_category.
  unfold update_category_pie, groupby_type_sum; simpl.
  apply map_ext. intros t. f_equal. f_equal.
  rewrite filter_filter_and. apply filter_ext. intros r. reflexivity.
Qed.

(** X10. The category pie chart and the stacked chart show the same
    numbers: the slices of the pie chart of a category are the entries of
    [reviews_by_type] for that category, in the same order. *)
Theorem pie_is_slice_of_stacked (df : list Row) (c : string) :
  category_by_type (update_category_pie df (Some c))
  = series_slice c (reviews_by_type df).
Proof. apply category_by_type_slice. Qed.

Lemma category_by_type_In (df : list Row) (c t : string) (v : Z) :
  In (t, v) (category_by_type (update_category_pie df (Some c)))
  <-> (exists r, In r df /\ Standardized_Category r = Some c
                 /\ Company_Type r = Some t)
      /\ v = sum_Review_Count (filter (in_group c t) df).
Proof.
  unfold update_category_pie, groupby_type_sum; simpl.
  rewrite in_map_iff. split.
  - intros (t' & [= -> <-] & Ht).
    apply sort_unique_In, present_In, in_map_iff in Ht as (r & Et & Hr).
    apply filter_In in Hr as [Hr Hc]. apply cell_eq_Some in Hc. split.
    + exists r. auto.
    + f_equal. rewrite filter_filter_and. apply filter_ext.
      intros x. reflexivity.
  - intros [(r & Hr & Hc & Ht) ->]. exists t. split.
    + f_equal. f_equal. rewrite filter_filter_and. apply filter_ext.
      intros x. reflexivity.
    + apply sort_unique_In, present_In, in_map_iff. exists r.
      split; [assumption|]. apply filter_In. split; [assumption|].
      now apply cell_eq_Some.
Qed.

Lemma pivot_row_of_category (agg : list Row -> Z) (df : list Row) (c : string) :
  In c (key_categories df) ->
  exists row,
    In row (records (add_Total (ensure_columns company_types
                                  (unstack 0 (groupby_agg agg df)))))
    /\ Category row = c.
Proof.
  intros Hc. rewrite <- (pivot_Category agg df) in Hc.
  apply in_map_iff in Hc as (row & E & Hrow). exists row. auto.
Qed.

(** X11. The category pie chart agrees with the reviews table: a slice of
    the pie chart of a category for one of the three listed company types
    has the value of the cell of that category and type in
    [reviews_per_type]. A type has a slice exactly when a row of the
    category has that type, so an empty cell of the table, shown as 0
    there, has no slice. *)
Theorem pie_agrees_with_table (df : list Row) (c t : string) :
  (forall v,
     In (t, v) (category_by_type (update_category_pie df (Some c))) ->
     In t company_types ->
     exists row, In row (records (reviews_per_type df))
                 /\ Category row = c
                 /\ get t (cells row) = Some v)
  /\ (In t (map fst (category_by_type (update_category_pie df (Some c))))
      <-> exists r, In r df /\ Standardized_Category r = Some c
                    /\ Company_Type r = Some t).
Proof.
  split.
  - intros v Hv Ht. apply category_by_type_In in Hv as [(r & Hr & Hc & Et) ->].
    destruct (@pivot_row_of_category sum_Review_Count df c)
      as (row & Hrow & E).
    { apply key_categories_In. exists r. repeat split; congruence. }
    exists row. split; [exact Hrow|]. split; [exact E|].
    destruct (reviews_per_type_row df row Hrow) as [Hcell _].
    rewrite (Hcell t Ht), E. reflexivity.
  - rewrite in_map_iff. split.
    + intros ([t' v] & E & Hv). simpl in E. subst t'.
      now apply category_by_type_In in Hv as [H _].
    + intros H. exists (t, sum_Review_Count (filter (in_group c t) df)).
      split; [reflexivity|]. apply category_by_type_In. auto.
Qed.

Lemma pie_agrees_with_table_witness :
  exists row,
    In row (records (reviews_per_type (raw_df parse_decimal example_sheet)))
    /\ Category row = "Hostility"
    /\ get "Small Private Hospital" (cells row) = Some 5.
Proof.
  apply (proj1 (pie_agrees_with_table (raw_df parse_decimal example_sheet)
                  "Hostility" "Small Private Hospital") 5).
  - vm_compute. right. left. reflexivity.
  - simpl. auto.
Defined.

(** ** The directory and its empty state *)

Lemma spec_directory_nonempty (df : list Row) (c : string) (r : Row) :
  In r df -> Standardized_Category r = Some c ->
  spec_directory df (Some c) <> [].
Proof.
  intros Hr Hc E.
  assert (H : In (Company_Name r, Company_Location r)
                 (spec_directory df (Some c))).
  { apply spec_directory_In. exists r. repeat split; [assumption|].
    now apply cell_eq_Some. }
  rewrite E in H. contradiction.
Qed.

Lemma update_company_breakdown_cases (df : list Row) (c : string) :
  (update_company_breakdown df (Some c) = NoCompanies
   /\ forall r, In r df -> Standardized_Category r <> Some c)
  \/ (update_company_breakdown df (Some c)
      = CompanyTable (spec_directory df (Some c))
      /\ exists r, In r df /\ Standardized_Category r = Some c).
Proof.
  rewrite update_company_breakdown_Some.
  destruct (mem c _) eqn:M.
  - right. split; [reflexivity|]. now apply mem_In, breakdown_category_In in M.
  - left. split; [reflexivity|]. intros r Hr Hc.
    assert (In c (sort_unique (present (map fst
               (drop_duplicates same_triple (map breakdown_key df)))))) as Hin
      by (apply breakdown_category_In; eauto).
    apply mem_In in Hin. congruence.
Qed.


(** X13. Every category that has a row in the count table has a directory:
    selecting it shows a non-empty table of companies. *)
Theorem table_category_has_directory (df : list Row) (c : string) :
  In c (map Category (records (company_counts df))) ->
  exists data,
    update_company_breakdown df (Some c) = CompanyTable data /\ data <> [].
Proof.
  intros Hc. unfold company_counts in Hc.
  rewrite (@pivot_Category size df) in Hc.
  apply key_categories_In in Hc as (r & Hr & Ec & _).
  destruct (update_company_breakdown_cases df c) as [[_ H]|[E _]].
  - now apply H in Hr.
  - eexists. split; [exact E|]. now apply (@spec_directory_nonempty df c r).
Qed.

Lemma table_category_has_directory_witness :
  exists data,
    update_company_breakdown (raw_df parse_decimal example_sheet)
                             (Some "Hostility") = CompanyTable data
    /\ data <> [].
Proof.
  apply table_category_has_directory. vm_compute. right. left. reflexivity.
Defined.



(** ** Events and the layout *)

(** X15. The order of selections with the two dropdowns does not matter:
    selecting a pie category and then a directory category leaves every
    property of the layout as selecting them the other way round; and
    repeating a selection changes nothing. *)
Theorem selections_commute (df : list Row) (st : Layout)
  (x y : option string) (q : property) :
  dispatch df (dispatch df st category_dropdown_value (Selected x))
           breakdown_category_dropdown_value (Selected y) q
  = dispatch df (dispatch df st breakdown_category_dropdown_value (Selected y))
             category_dropdown_value (Selected x) q
  /\ dispatch df (dispatch df st category_dropdown_value (Selected x))
              category_dropdown_value (Selected x) q
     = dispatch df st category_dropdown_value (Selected x) q
  /\ dispatch df (dispatch df st breakdown_category_dropdown_value (Selected y))
              breakdown_category_dropdown_value (Selected y) q
     = dispatch df st breakdown_category_dropdown_value (Selected y) q.
Proof.
  rewrite !dispatch_category, !dispatch_breakdown_category.
  repeat split; now destruct q.
Qed.

(** A layout in which each view is the view of what its dropdown holds. *)
Lemma step_keeps_views (df : list Row) (st : Layout) (e : event) :
  st category_pie_chart_figure
  = Pie (update_category_pie df
           (selected_category_of (st category_dropdown_value))) ->
  st company_breakdown_table_children
  = Children (update_company_breakdown df
                (selected_category_of (st breakdown_category_dropdown_value))) ->
  step df st e category_pie_chart_figure
  = Pie (update_category_pie df
           (selected_category_of (step df st e category_dropdown_value)))
  /\ step df st e company_breakdown_table_children
     = Children (update_company_breakdown df
                   (selected_category_of
                      (step df st e breakdown_category_dropdown_value))).
Proof.
  intros Hp Hb. destruct e; simpl;
    rewrite ?dispatch_category, ?dispatch_breakdown_category, ?dispatch_hover;
    simpl; auto.
Qed.

(** X16. No view is ever stale: from page load on, after any sequence of
    selections and hovers, the category pie chart is the chart of the
    category its dropdown holds and the directory is the directory of the
    category its dropdown holds. *)
Theorem views_never_stale (df : list Row) (es : list event) :
  run_events df (page_load df) es category_pie_chart_figure
  = Pie (update_category_pie df
           (selected_category_of
              (run_events df (page_load df) es category_dropdown_value)))
  /\ run_events df (page_load df) es company_breakdown_table_children
     = Children (update_company_breakdown df
                   (selected_category_of
                      (run_events df (page_load df) es
                                  breakdown_category_dropdown_value))).
Proof.
  unfold run_events.
  assert (G : forall st,
             st category_pie_chart_figure
             = Pie (update_category_pie df
                      (selected_category_of (st category_dropdown_value))) ->
             st company_breakdown_table_children
             = Children (update_company_breakdown df
                           (selected_category_of
                              (st breakdown_category_dropdown_value))) ->
             fold_left (step df) es st category_pie_chart_figure
             = Pie (update_category_pie df
                      (selected_category_of
                         (fold_left (step df) es st category_dropdown_value)))
             /\ fold_left (step df) es st company_breakdown_table_children
                = Children (update_company_breakdown df
                              (selected_category_of
                                 (fold_left (step df) es st
                                            breakdown_category_dropdown_value)))).
  { induction es as [|e es IH]; intros st Hp Hb; simpl; [auto|].
    destruct (@step_keeps_views df st e Hp Hb) as [Hp' Hb'].
    now apply IH. }
  apply G; reflexivity.
Qed.

(** ** Number formatting *)

Lemma strip_commas_digits (d : Decimal.uint) (k : nat) :
  strip_commas (commas k (DecimalString.NilEmpty.string_of_uint d))
  = DecimalString.NilEmpty.string_of_uint d.
Proof.
  revert k. induction d; intros k; simpl; [reflexivity|..];
    destruct k; simpl; now rewrite IHd.
Qed.

Lemma strip_commas_group (d : Decimal.uint) :
  strip_commas (group_thousands (DecimalString.NilZero.string_of_uint d))
  = DecimalString.NilZero.string_of_uint d.
Proof.
  unfold group_thousands. destruct d;
    try apply strip_commas_digits. reflexivity.
Qed.

Lemma strip_commas_format (z : Z) :
  strip_commas (format_thousands z)
  = DecimalString.NilZero.string_of_int (Z.to_int z).
Proof.
  unfold format_thousands. destruct (Z.to_int z); simpl.
  - apply strip_commas_group.
  - f_equal. apply strip_commas_group.
Qed.

Lemma to_int_proper (z : Z) :
  Z.to_int z <> Decimal.Pos Decimal.Nil /\ Z.to_int z <> Decimal.Neg Decimal.Nil.
Proof.
  destruct z; simpl; split; try discriminate; intros [= E];
    now apply DecimalPos.Unsigned.to_uint_nonnil in E.
Qed.

Lemma parse_format_thousands (z : Z) :
  parse_thousands (format_thousands z) = Some z.
Proof.
  unfold parse_thousands. rewrite strip_commas_format.
  destruct (to_int_proper z) as [H1 H2].
  rewrite (DecimalString.NilZero.isi _ H1 H2). simpl.
  now rewrite DecimalZ.of_to.
Qed.

Lemma length_commas (k : nat) (s : string) :
  String.length (commas k s)
  = (String.length s
     + if String.length s <=? k then 0 else (String.length s - k + 2) / 3)%nat.
Proof.
  revert k. induction s as [|a s IH]; intros k; [reflexivity|].
  destruct k as [|k]; cbn [commas String.length]; rewrite IH;
    generalize (String.length s); intros n.
  - assert (E : ((S n - 0 + 2) / 3 = 1 + n / 3)%nat).
    { replace (S n - 0 + 2)%nat with (n + 1 * 3)%nat by lia.
      rewrite Nat.div_add by discriminate. lia. }
    rewrite E. change (S n <=? 0)%nat with false. cbv iota.
    destruct (Nat.leb_spec n 2) as [L|L].
    + rewrite (Nat.div_small n 3) by lia. lia.
    + replace (n - 2 + 2)%nat with n by lia. lia.
  - change (S n <=? S k)%nat with (n <=? k)%nat.
    change (S n - S k)%nat with (n - k)%nat. lia.
Qed.

Lemma length_group_thousands (s : string) :
  String.length (group_thousands s)
  = (String.length s + (String.length s - 1) / 3)%nat.
Proof.
  unfold group_thousands. rewrite length_commas.
  destruct (String.length s) as [|m]; [reflexivity|].
  replace (S m - 1)%nat with m by lia.
  pose proof (Nat.div_mod_eq m 3) as E.
  pose proof (Nat.mod_upper_bound m 3 ltac:(discriminate)) as B.
  f_equal.
  destruct (Nat.leb_spec (S m) (S (m mod 3))) as [L|L].
  - symmetry. apply Nat.div_small. lia.
  - replace (S m - S (m mod 3) + 2)%nat with (2 + (m / 3) * 3)%nat by lia.
    rewrite Nat.div_add by discriminate. reflexivity.
Qed.

(** X17. [format_thousands] only inserts commas: taking the commas out
    gives the plain decimal text of the number, reading the text back
    gives the number, and so two numbers are written alike only if they
    are equal. A group of [n] digits gets [(n - 1) / 3] commas. *)
Theorem format_thousands_round_trip (z : Z) :
  strip_commas (format_thousands z)
  = DecimalString.NilZero.string_of_int (Z.to_int z)
  /\ parse_thousands (format_thousands z) = Some z
  /\ (forall z', format_thousands z = format_thousands z' -> z = z')
  /\ (forall s, String.length (group_thousands s)
                = (String.length s + (String.length s - 1) / 3)%nat).
Proof.
  split; [apply strip_commas_format|].
  split; [apply parse_format_thousands|].
  split; [|apply length_group_thousands].
  intros z' E.
  pose proof (parse_format_thousands z) as P.
  rewrite E, parse_format_thousands in P. now injection P.
Qed.

(** ** The reviews table as shown *)

Lemma length_append (s t : string) :
  String.length (s ++ t) = (String.length s + String.length t)%nat.
Proof. induction s as [|a s IH]; simpl; [reflexivity|now rewrite IH]. Qed.

Lemma append_inj_r (s1 s2 t : string) : s1 ++ t = s2 ++ t -> s1 = s2.
Proof.
  revert s2. induction s1 as [|a s1 IH]; intros [|b s2] E; simpl in E.
  - reflexivity.
  - apply (f_equal String.length) in E. simpl in E.
    rewrite length_append in E. lia.
  - apply (f_equal String.length) in E. simpl in E.
    rewrite length_append in E. lia.
  - injection E as -> E. f_equal. now apply IH.
Qed.

(** X18. A cell of the reviews table reads '0 reviews' exactly when its
    value is not positive, so a negative sum is shown as 0; a positive
    value is shown with its digits grouped by thousands, and two positive
    values are shown alike only if they are equal. *)
Theorem display_reviews_text (v : Z) :
  (display_reviews v = "0 reviews" <-> v <= 0)
  /\ (0 < v -> display_reviews v = format_thousands v ++ " reviews")
  /\ (forall v', 0 < v -> 0 < v' ->
                 display_reviews v = display_reviews v' -> v = v').
Proof.
  unfold display_reviews. split; [|split].
  - destruct (Z.ltb_spec 0 v) as [H|H]; [|tauto].
    split; [|lia]. intros E.
    change "0 reviews" with (format_thousands 0 ++ " reviews") in E.
    apply append_inj_r in E.
    assert (v = 0); [|lia].
    pose proof (parse_format_thousands v) as P.
    rewrite E, parse_format_thousands in P. now injection P.
  - intros H. destruct (Z.ltb_spec 0 v); [reflexivity|lia].
  - intros v' H H' E.
    destruct (Z.ltb_spec 0 v); [|lia]. destruct (Z.ltb_spec 0 v'); [|lia].
    apply append_inj_r in E.
    pose proof (parse_format_thousands v) as P.
    rewrite E, parse_format_thousands in P. now injection P.
Qed.

Lemma display_reviews_text_witness :
  display_reviews 1234567 = "1,234,567 reviews".
Proof.
  rewrite (proj1 (proj2 (display_reviews_text 1234567))); [reflexivity|lia].
Defined.


Lemma format_thousands_examples :
  map format_thousands [0; 7; 999; 1000; 12345; 1234567; -1234]
  = ["0"; "7"; "999"; "1,000"; "12,345"; "1,234,567"; "-1,234"].
Proof. reflexivity. Qed.
